(** * Text-to-Motion API gateway (src/text_motion_api/main.py)

    A shallow embedding of the gateway's session registry, rate limiter,
    motion store, remote-generation exchange and NPZ conversion, with the
    properties the specification states about them.

    Conventions of the embedding.
    - A [datetime] is the number of microseconds since an arbitrary epoch;
      a [timedelta] is a number of microseconds.  [datetime.now()] is an
      explicit argument of every function that reads the clock.
    - A Python exception is a value of [exn]; code that may raise returns a
      [result].  Handlers mutate shared session objects even when they end
      by raising, so a handler returns its outcome together with the
      registry it leaves behind.
    - [self.sessions] is a [gmap]; a session's [motions] dict is a list of
      (key, value) pairs in insertion order, because [min] over its keys
      breaks ties by that order.
    - The libraries the service calls ([np.load], [json.loads], the
      websockets client) are not part of the program: the two parsers are
      section variables, and one websocket exchange is a value of
      [ws_exchange] saying what the library did.  The websockets library
      defines no [ConnectionRefused]: evaluating the [except] clause that
      names it raises AttributeError, which the embedding follows. *)

From Stdlib Require Import ZArith QArith Qabs Ascii String List Lia.
From stdpp Require Import gmap strings list fin_maps sorting.

Local Close Scope Q_scope.
Local Open Scope string_scope.
Local Open Scope Z_scope.

(** ** Python values, exceptions and results *)

Definition bytes := list Byte.byte.
Definition datetime := Z.
Definition timedelta := Z.

Definition timedelta_minutes (m : Z) : timedelta := m * 60000000.
Definition timedelta_hours (h : Z) : timedelta := h * 3600000000.

(** The result of [json.loads]. *)
#[local] Unset Elimination Schemes.
Inductive json :=
| JNull
| JBool (b : bool)
| JNum (x : Q)
| JStr (s : string)
| JArr (items : list json)
| JObj (members : list (string * json)).
#[local] Set Elimination Schemes.

(** [HTTPException.detail]: the handlers raise it either with a dict that
    has the keys "error" and "code", or with a plain string. *)
Inductive http_detail :=
| DetailDict (error code : json)
| DetailStr (s : string).

Inductive exn :=
| KeyError (key : string)
| IndexError
| ZeroDivisionError
| ValueError
| AttributeError (msg : string)
| TimeoutError                       (* asyncio.TimeoutError *)
| WebSocketException (msg : string)  (* websockets.exceptions.WebSocketException *)
| OtherException (msg : string)      (* any other subclass of Exception *)
| HTTPException (status_code : Z) (detail : http_detail).

(** [str(e)] *)
Definition exn_str (e : exn) : string :=
  match e with
  | KeyError key => "'" ++ key ++ " is not a file in the archive'"
  | IndexError => "index 0 is out of bounds for axis 0 with size 0"
  | ZeroDivisionError => "division by zero"
  | ValueError => "min() arg is an empty sequence"
  | AttributeError msg => msg
  | TimeoutError => String.EmptyString
  | WebSocketException msg => msg
  | OtherException msg => msg
  | HTTPException _ _ => String.EmptyString
  end.

Inductive result (A : Type) :=
| Return (a : A)
| Raise (e : exn).
Arguments Return {A} a.
Arguments Raise {A} e.

Global Instance result_ret : MRet result := @Return.
Global Instance result_bind : MBind result := fun A B f m =>
  match m with
  | Return a => f a
  | Raise e => Raise e
  end.

Definition raises {A} (r : result A) : Prop :=
  match r with Return _ => False | Raise _ => True end.

Definition returns {A} (r : result A) : Prop :=
  match r with Return _ => True | Raise _ => False end.

(** ** Configuration (class Config) *)

Record Config := {
  WS_TIMEOUT : Z;                     (* seconds *)
  DATA_RETENTION_MINUTES : Z;
  CLEANUP_INTERVAL_MINUTES : Z;
  MAX_STORED_MOTIONS_PER_USER : Z;
  MAX_REQUESTS_PER_MINUTE : Z }.

(** The values used when the environment sets none. *)
Definition default_config : Config := {|
  WS_TIMEOUT := 60;
  DATA_RETENTION_MINUTES := 30;
  CLEANUP_INTERVAL_MINUTES := 5;
  MAX_STORED_MOTIONS_PER_USER := 10;
  MAX_REQUESTS_PER_MINUTE := 10 |}.

(** ** Data model *)

(** The dict built by [convert_npz_to_motion_data].  [created_at] is kept
    as the [datetime] whose [isoformat()] the dict holds: on naive
    datetimes the ISO text compares as the instants do, and the gateway
    does nothing with the text but compare it. *)
Record MotionData := {
  md_name : string;
  md_fps : Q;
  md_joint_pos : list (list Q);
  md_root_pos : list (list Q);
  md_root_quat : list (list Q);
  md_frame_count : nat;
  md_duration : Q;
  md_created_at : datetime }.

Record Parameters := {
  p_motion_length : Q;
  p_num_inference_steps : Z;
  p_adaptive_smooth : bool;
  p_static_start : bool;
  p_transition_steps : Z }.

(** The dict stored in [session.motions]: the converted data plus the three
    keys [generate_motion] adds. *)
Record StoredMotion := {
  sm_data : MotionData;
  sm_motion_id : string;
  sm_text_prompt : string;
  sm_parameters : Parameters }.

Definition sm_created_at (m : StoredMotion) : datetime := md_created_at (sm_data m).

(** [session.motions], in insertion order. *)
Definition motion_dict := list (string * StoredMotion).

Record UserSession := {
  session_id : string;
  created_at : datetime;
  last_activity : datetime;
  motions : motion_dict;
  request_count : Z;
  request_window_start : datetime }.

Record AppState := { sessions : gmap string UserSession }.

(** The arrays of an NPZ container, as the docstring of
    [convert_npz_to_motion_data] types them: [fps] a one-dimensional
    integer array, the other three two-dimensional float arrays (a list of
    rows); [None] when the container has no array of that name. *)
Record NpzFile := {
  npz_fps : option (list Z);
  npz_joint_pos : option (list (list Q));
  npz_root_pos : option (list (list Q));
  npz_root_rot : option (list (list Q)) }.

(** [data[key]] *)
Definition getitem {A} (key : string) (entry : option A) : result A :=
  match entry with
  | Some a => Return a
  | None => Raise (KeyError key)
  end.

(** [arr[0]] on a one-dimensional array *)
Definition index0 {A} (arr : list A) : result A :=
  match arr with
  | a :: _ => Return a
  | [] => Raise IndexError
  end.

(** [a / b] on Python ints is the double nearest the exact quotient, ties
    to the even mantissa.  A finite double is kept as the rational it
    denotes, [mantissa * 2 ^ e].

    [scaled a b e] is the fraction [a / (b * 2 ^ e)] as a numerator and a
    denominator. *)
Definition scaled (a b e : Z) : Z * Z :=
  (a * 2 ^ Z.max 0 (- e), b * 2 ^ Z.max 0 e).

(** The exponent of the last mantissa bit of [a / b], for positive [a] and
    [b]: the [e] with [2 ^ 52 <= a / (b * 2 ^ e) < 2 ^ 53], or -1074 in the
    subnormal range. *)
Definition ulp_exponent (a b : Z) : Z :=
  let e := Z.log2 a - Z.log2 b - 52 in
  let '(n, m) := scaled a b e in
  Z.max (if 2 ^ 52 * m <=? n then e else e - 1) (-1074).

(** [n / m] rounded to the nearest integer, ties to even. *)
Definition round_half_even (n m : Z) : Z :=
  let q := n / m in
  let r := n mod m in
  if 2 * r <? m then q
  else if m <? 2 * r then q + 1
  else if Z.even q then q else q + 1.

(** The double [a / b] for [b] other than 0.  Python raises OverflowError
    from 2 ^ 1024 on, which the quotient of an array length by an integer
    does not reach. *)
Definition float_quotient (a b : Z) : Q :=
  if decide (a = 0) then inject_Z 0
  else
    let e := ulp_exponent (Z.abs a) (Z.abs b) in
    let '(n, m) := scaled (Z.abs a) (Z.abs b) e in
    Qmake (Z.sgn a * Z.sgn b * round_half_even n m * 2 ^ Z.max 0 e)
          (Z.to_pos (2 ^ Z.max 0 (- e))).
Arguments float_quotient : simpl never.

Definition true_div (a b : Z) : result Q :=
  if decide (b = 0) then Raise ZeroDivisionError
  else Return (float_quotient a b).

(** ** Dicts that remember insertion order *)

Definition dict (V : Type) := list (string * V).

(** [d.get(k)] *)
Fixpoint dict_get {V} (k : string) (d : dict V) : option V :=
  match d with
  | [] => None
  | (k', v) :: d' => if decide (k = k') then Some v else dict_get k d'
  end.

(** [d[k] = v]: an existing key keeps its place, a new one goes last. *)
Fixpoint dict_set {V} (k : string) (v : V) (d : dict V) : dict V :=
  match d with
  | [] => [(k, v)]
  | (k', v') :: d' =>
      if decide (k = k') then (k, v) :: d' else (k', v') :: dict_set k v d'
  end.

(** [del d[k]], for a key the caller knows to be present. *)
Fixpoint dict_del {V} (k : string) (d : dict V) : dict V :=
  match d with
  | [] => []
  | (k', v') :: d' =>
      if decide (k = k') then d' else (k', v') :: dict_del k d'
  end.

(** [min(d.keys(), key=lambda k: f(d[k]))]: the first key, in iteration
    order, whose value has the least [f]; [ValueError] on an empty dict. *)
Definition min_step {V} (f : V -> Z) (best kv : string * V) : string * V :=
  if f kv.2 <? f best.2 then kv else best.

Definition dict_min_key {V} (f : V -> Z) (d : dict V) : result string :=
  match d with
  | [] => Raise ValueError
  | kv :: d' => Return (fold_left (min_step f) d' kv).1
  end.

(** ** Records updated in place *)

Definition set_last_activity (t : datetime) (s : UserSession) : UserSession :=
  {| session_id := session_id s; created_at := created_at s;
     last_activity := t; motions := motions s;
     request_count := request_count s;
     request_window_start := request_window_start s |}.

Definition set_motions (d : dict StoredMotion) (s : UserSession) : UserSession :=
  {| session_id := session_id s; created_at := created_at s;
     last_activity := last_activity s; motions := d;
     request_count := request_count s;
     request_window_start := request_window_start s |}.

Definition set_request_count (n : Z) (s : UserSession) : UserSession :=
  {| session_id := session_id s; created_at := created_at s;
     last_activity := last_activity s; motions := motions s;
     request_count := n;
     request_window_start := request_window_start s |}.

Definition set_request_window_start (t : datetime) (s : UserSession) : UserSession :=
  {| session_id := session_id s; created_at := created_at s;
     last_activity := last_activity s; motions := motions s;
     request_count := request_count s;
     request_window_start := t |}.

(** [self.sessions[sid] = session], also used to record a mutation of the
    session object the registry holds under [sid]. *)
Definition store_session (sid : string) (session : UserSession) (st : AppState) : AppState :=
  {| sessions := <[sid := session]> (sessions st) |}.

(** A session id as the conditions [if session_id and ...] and
    [session_id or ...] see it: [None] and the empty string are both false. *)
Definition truthy (session_id : option string) : option string :=
  match session_id with
  | Some sid => if decide (sid = String.EmptyString) then None else Some sid
  | None => None
  end.

(** [session_id and session_id in sessions], with the session found. *)
Definition known_session (session_id : option string) (st : AppState) : option (string * UserSession) :=
  sid ← truthy session_id;
  session ← sessions st !! sid;
  Some (sid, session).

(** Case analysis on the disjunctions and existentials in scope. *)
Ltac by_cases :=
  solve [ repeat split; intros;
          repeat match goal with
                 | H : _ ∨ _ |- _ => destruct H
                 | H : _ ∧ _ |- _ => destruct H
                 | H : ∃ _, _ |- _ => destruct H
                 | H : False |- _ => destruct H
                 end;
          simplify_eq; try done; try congruence; eauto 10 ].

Section Gateway.

(** [np.load(io.BytesIO(b))] and [json.loads(s)]. *)
Variable np_load : bytes -> result NpzFile.
Variable json_loads : string -> option json.

Variable config : Config.

(** ** Motion codec: convert_npz_to_motion_data *)

(** [astype(np.float32)] and [tolist()] keep the rows of an array as they
    are. *)

Definition convert_npz_to_motion_data
    (npz_bytes : bytes) (motion_name : string) (now : datetime) : result MotionData :=
  data ← np_load npz_bytes;
  fps_arr ← getitem "fps" (npz_fps data);
  fps ← index0 fps_arr;
  joint_pos ← getitem "joint_pos" (npz_joint_pos data);
  root_pos ← getitem "root_pos" (npz_root_pos data);
  root_rot ← getitem "root_rot" (npz_root_rot data);
  let frame_count := length joint_pos in
  duration ← true_div (Z.of_nat frame_count) fps;
  mret {| md_name := motion_name;
          md_fps := inject_Z fps;
          md_joint_pos := joint_pos;
          md_root_pos := root_pos;
          md_root_quat := root_rot;
          md_frame_count := frame_count;
          md_duration := duration;
          md_created_at := now |}.

(** ** Session registry: AppState *)

Definition new_session (sid : string) (now now_field : datetime) : UserSession :=
  {| session_id := sid; created_at := now; last_activity := now;
     motions := []; request_count := 0; request_window_start := now_field |}.

(** The registry key of the object [get_or_create_session] returns. *)
Definition session_key (session_id : option string) (uuid4 : string) : string :=
  default uuid4 (truthy session_id).

(** [uuid4] is the value of [str(uuid.uuid4())], [now] the clock read in
    the body and [now_field] the one read by the default factory of
    [request_window_start]. *)
Definition get_or_create_session
    (session_id : option string) (uuid4 : string) (now now_field : datetime)
    (st : AppState) : UserSession * AppState :=
  match known_session session_id st with
  | Some (sid, session) =>
      let session := set_last_activity now session in
      (session, store_session sid session st)
  | None =>
      let new_session_id := default uuid4 (truthy session_id) in
      let session := new_session new_session_id now now_field in
      (session, store_session new_session_id session st)
  end.

Definition is_expired (now : datetime) (session : UserSession) : bool :=
  let inactive_duration := now - last_activity session in
  let session_age := now - created_at session in
  (inactive_duration >? timedelta_minutes (DATA_RETENTION_MINUTES config))
  || (session_age >? timedelta_hours 2).

Definition cleanup_expired_sessions (now : datetime) (st : AppState) : AppState :=
  let expired_sessions :=
    (filter (fun kv => is_expired now kv.2 = true) (map_to_list (sessions st))).*1 in
  {| sessions := fold_left (fun m sid => delete sid m) expired_sessions (sessions st) |}.

(** ** Rate limiter: AppState.check_rate_limit *)

Definition check_rate_limit (now : datetime) (session : UserSession) : bool * UserSession :=
  let window_duration := now - request_window_start session in
  let session :=
    if window_duration >? timedelta_minutes 1
    then set_request_window_start now (set_request_count 0 session)
    else session in
  if request_count session >=? MAX_REQUESTS_PER_MINUTE config
  then (false, session)
  else (true, set_request_count (request_count session + 1) session).

(** ** Motion store: enforce_motion_limit and the insert that follows it *)

Definition enforce_motion_limit (session : UserSession) : result UserSession :=
  if Z.of_nat (length (motions session)) >=? MAX_STORED_MOTIONS_PER_USER config
  then
    oldest_id ← dict_min_key sm_created_at (motions session);
    mret (set_motions (dict_del oldest_id (motions session)) session)
  else mret session.

(** Lines 437-439 of [generate_motion]:
    [enforce_motion_limit(session); session.motions[motion_id] = motion_data]. *)
Definition store_motion (motion_id : string) (motion_data : StoredMotion)
    (session : UserSession) : result UserSession :=
  session ← enforce_motion_limit session;
  mret (set_motions (dict_set motion_id motion_data (motions session)) session).

(** ** Remote generation client: generate_motion_from_remote *)

(** What the websockets library did inside the [async with] block:
    [WsRaised e] when [connect], [send] or [wait_for(recv)] raised [e]
    ([wait_for] raises [TimeoutError] at the deadline [WS_TIMEOUT]),
    otherwise the message [recv] returned, a [str] or [bytes]. *)
Inductive ws_exchange :=
| WsRaised (e : exn)
| WsText (response : string)
| WsBinary (response : bytes).

(** [error_data.get(key, dflt)]; only a dict has [get]. *)
Definition json_get (error_data : json) (key : string) (dflt : json) : result json :=
  match error_data with
  | JObj members => Return (default dflt (dict_get key members))
  | _ => Raise (AttributeError "object has no attribute 'get'")
  end.

Definition http_error (status : Z) (error code : string) : exn :=
  HTTPException status (DetailDict (JStr error) (JStr code)).

(** What evaluating [websockets.exceptions.ConnectionRefused] raises. *)
Definition connection_refused_missing : exn :=
  AttributeError "module 'websockets.exceptions' has no attribute 'ConnectionRefused'".

(** The [except] clauses of lines 322-336, tried in order on an exception
    that leaves the [try] block.  [asyncio.TimeoutError] matches the first.
    For any other exception Python goes on to the second clause and
    evaluates its class, which raises [connection_refused_missing] in place
    of the exception being handled: the bodies of the second and third
    clause (503 SERVER_UNAVAILABLE, 502 WEBSOCKET_ERROR) are never run. *)
Definition except_clauses (e : exn) : exn :=
  match e with
  | TimeoutError =>
      http_error 504 "Request timeout - generation took too long" "TIMEOUT"
  | _ => connection_refused_missing
  end.

(** [json_loads] gives [None] where [json.loads] raises [JSONDecodeError]. *)
Definition generate_motion_from_remote (exchange : ws_exchange) : result bytes :=
  let body : result bytes :=
    match exchange with
    | WsRaised e => Raise e
    | WsText response =>
        match json_loads response with
        | Some error_data =>
            error_msg ← json_get error_data "error" (JStr "Unknown error");
            error_code ← json_get error_data "code" (JStr "SERVER_ERROR");
            Raise (HTTPException 500 (DetailDict error_msg error_code))
        | None =>
            Raise (http_error 500 "Invalid response from server" "INVALID_RESPONSE")
        end
    | WsBinary response => Return response
    end in
  match body with
  | Raise e => Raise (except_clauses e)
  | Return response => Return response
  end.

(** ** Error handlers *)

(** The uniform envelope [{success, error, code}] with its HTTP status. *)
Record JSONResponse := {
  resp_status : Z;
  resp_success : bool;
  resp_error : json;
  resp_code : json }.

(** [http_exception_handler]: a dict detail always has both keys here, so
    the defaults of its two [get] calls are never used. *)
Definition http_exception_handler (status : Z) (detail : http_detail) : JSONResponse :=
  match detail with
  | DetailDict error code =>
      {| resp_status := status; resp_success := false;
         resp_error := error; resp_code := code |}
  | DetailStr s =>
      {| resp_status := status; resp_success := false;
         resp_error := JStr s; resp_code := JStr "UNKNOWN" |}
  end.

Definition general_exception_handler : JSONResponse :=
  {| resp_status := 500; resp_success := false;
     resp_error := JStr "Internal server error";
     resp_code := JStr "INTERNAL_ERROR" |}.

(** What the client receives when an endpoint raises. *)
Definition error_envelope (e : exn) : JSONResponse :=
  match e with
  | HTTPException status detail => http_exception_handler status detail
  | _ => general_exception_handler
  end.

(** ** API endpoints *)

Record TextToMotionRequest := {
  text : string;
  motion_length : Q;
  num_inference_steps : Z;
  seed : option Z;
  smooth : option bool;
  smooth_window : Z;
  adaptive_smooth : bool;
  static_start : bool;
  static_frames : Z;
  blend_frames : Z;
  transition_steps : Z }.

Record GenerationResponse := {
  gr_success : bool;
  gr_motion_id : string;
  gr_motion : MotionData;
  gr_message : string }.

(** What one call of [generate_motion] reads from outside the registry:
    the session uuid and clock readings of [get_or_create_session], the
    clock of [check_rate_limit], the websocket exchange, the
    [strftime('%Y%m%d_%H%M%S')] text and [uuid4().hex] of the motion id,
    and the clock of the conversion.  The request sent to the server
    decides nothing in the gateway but the server's answer, which the
    exchange already is. *)
Record GenEnv := {
  env_uuid4 : string;
  env_now_session : datetime;
  env_now_field : datetime;
  env_now_rate : datetime;
  env_exchange : ws_exchange;
  env_stamp : string;
  env_uuid_hex : string;
  env_now_convert : datetime }.

Definition rate_limit_error : exn :=
  http_error 429 "Rate limit exceeded - max 10 requests per minute" "RATE_LIMIT".

(** The first part of [generate_motion], up to the rate-limit check: the
    decision, the session object and the registry.  The session object is
    the one the registry holds under [session_key]; every mutation of it is
    written back there. *)
Definition admission (x_session_id : option string) (env : GenEnv) (st : AppState)
    : bool * UserSession * AppState :=
  let '(session, st) :=
    get_or_create_session x_session_id (env_uuid4 env)
      (env_now_session env) (env_now_field env) st in
  let sid := session_key x_session_id (env_uuid4 env) in
  let '(admitted, session) := check_rate_limit (env_now_rate env) session in
  (admitted, session, store_session sid session st).

(** The body of the [try] of [generate_motion]: the response and the
    session with the motion stored, or the exception raised; the session is
    mutated only by [store_motion], after which nothing raises. *)
Definition generate_attempt (request : TextToMotionRequest) (env : GenEnv)
    (session : UserSession) : result (GenerationResponse * UserSession) :=
  npz_bytes ← generate_motion_from_remote (env_exchange env);
  let motion_id :=
    "gen_" ++ env_stamp env ++ "_" ++ substring 0 8 (env_uuid_hex env) in
  let motion_name := "[AI] " ++ substring 0 30 (text request) in
  motion_data ← convert_npz_to_motion_data npz_bytes motion_name (env_now_convert env);
  let stored :=
    {| sm_data := motion_data;
       sm_motion_id := motion_id;
       sm_text_prompt := text request;
       sm_parameters :=
         {| p_motion_length := motion_length request;
            p_num_inference_steps := num_inference_steps request;
            p_adaptive_smooth := adaptive_smooth request;
            p_static_start := static_start request;
            p_transition_steps := transition_steps request |} |} in
  session ← store_motion motion_id stored session;
  mret ({| gr_success := true; gr_motion_id := motion_id;
           gr_motion := motion_data;
           gr_message := "Motion generated successfully" |}, session).

(** POST /api/generate: the outcome and the registry left behind, also
    when the handler raises. *)
Definition generate_motion
    (request : TextToMotionRequest) (x_session_id : option string)
    (env : GenEnv) (st : AppState) : result GenerationResponse * AppState :=
  let '(admitted, session, st) := admission x_session_id env st in
  let sid := session_key x_session_id (env_uuid4 env) in
  if negb admitted then (Raise rate_limit_error, st)
  else
    match generate_attempt request env session with
    | Return (response, session) => (Return response, store_session sid session st)
    | Raise (HTTPException status detail) => (Raise (HTTPException status detail), st)
    | Raise e =>
        (Raise (http_error 500 ("Failed to generate motion: " ++ exn_str e)
                  "GENERATION_FAILED"), st)
    end.

Record MotionSummary := {
  ms_motion_id : string;
  ms_name : string;
  ms_frame_count : nat;
  ms_duration : Q;
  ms_created_at : datetime;
  ms_text_prompt : string }.

Definition summary (kv : string * StoredMotion) : MotionSummary :=
  {| ms_motion_id := kv.1;
     ms_name := md_name (sm_data kv.2);
     ms_frame_count := md_frame_count (sm_data kv.2);
     ms_duration := md_duration (sm_data kv.2);
     ms_created_at := sm_created_at kv.2;
     ms_text_prompt := substring 0 100 (sm_text_prompt kv.2) |}.

(** [sorted(l, key=created_at, reverse=True)]: newest first, equal keys in
    their original order. *)
Fixpoint insert_desc (x : MotionSummary) (l : list MotionSummary) : list MotionSummary :=
  match l with
  | [] => [x]
  | y :: l' =>
      if ms_created_at x <? ms_created_at y then y :: insert_desc x l'
      else x :: y :: l'
  end.

Definition sorted_desc (l : list MotionSummary) : list MotionSummary :=
  foldr insert_desc [] l.

Record MotionList := {
  ml_motions : list MotionSummary;
  ml_session_id : option string }.

(** GET /api/motions *)
Definition list_motions (x_session_id : option string) (now : datetime)
    (st : AppState) : MotionList * AppState :=
  match known_session x_session_id st with
  | None => ({| ml_motions := []; ml_session_id := None |}, st)
  | Some (sid, session) =>
      let session := set_last_activity now session in
      ({| ml_motions := sorted_desc (summary <$> motions session);
          ml_session_id := Some sid |},
       store_session sid session st)
  end.

(** GET /api/motions/{motion_id} *)
Definition get_motion (motion_id : string) (x_session_id : option string)
    (now : datetime) (st : AppState) : result StoredMotion * AppState :=
  match known_session x_session_id st with
  | None => (Raise (HTTPException 404 (DetailStr "Session not found")), st)
  | Some (sid, session) =>
      let session := set_last_activity now session in
      let st := store_session sid session st in
      match dict_get motion_id (motions session) with
      | None => (Raise (HTTPException 404 (DetailStr "Motion not found")), st)
      | Some motion => (Return motion, st)
      end
  end.

(** DELETE /api/motions/{motion_id}; [now] is the time of the call, which
    the handler does not read. *)
Definition delete_motion (motion_id : string) (x_session_id : option string)
    (now : datetime) (st : AppState) : result unit * AppState :=
  match known_session x_session_id st with
  | None => (Raise (HTTPException 404 (DetailStr "Session not found")), st)
  | Some (sid, session) =>
      match dict_get motion_id (motions session) with
      | None => (Raise (HTTPException 404 (DetailStr "Motion not found")), st)
      | Some _ =>
          let session := set_motions (dict_del motion_id (motions session)) session in
          (Return tt, store_session sid session st)
      end
  end.

(** POST /api/session *)
Definition create_session (uuid4 : string) (now now_field : datetime)
    (st : AppState) : UserSession * AppState :=
  get_or_create_session None uuid4 now now_field st.

(** ** Sequences of operations on one session *)

(** Consecutive rate-limit checks at the given times: the decisions, in
    order, and the session afterwards. *)
Fixpoint check_rate_limits (times : list datetime) (session : UserSession)
    : list bool * UserSession :=
  match times with
  | [] => ([], session)
  | now :: times' =>
      let '(admitted, session) := check_rate_limit now session in
      let '(decisions, session) := check_rate_limits times' session in
      (admitted :: decisions, session)
  end.

(** Consecutive inserts into the session's store; an insert that raises
    leaves the store as it was. *)
Fixpoint store_motions (inserts : list (string * StoredMotion)) (session : UserSession)
    : UserSession :=
  match inserts with
  | [] => session
  | (motion_id, motion_data) :: inserts' =>
      match store_motion motion_id motion_data session with
      | Return session' => store_motions inserts' session'
      | Raise _ => store_motions inserts' session
      end
  end.

(** The motions the registry holds for a session id. *)
Definition stored_motions (st : AppState) (sid : string) : dict StoredMotion :=
  match sessions st !! sid with
  | Some session => motions session
  | None => []
  end.

(** Every motion record the registry [st'] holds was already held by [st]. *)
Definition no_motion_created (st st' : AppState) : Prop :=
  ∀ sid motion_id motion,
    dict_get motion_id (stored_motions st' sid) = Some motion ->
    dict_get motion_id (stored_motions st sid) = Some motion.

(** The rate-limit window as step 1 of section 4.2 leaves it at [now]. *)
Definition window_expired (now : datetime) (session : UserSession) : Prop :=
  now - request_window_start session > timedelta_minutes 1.

Global Instance window_expired_dec now session : Decision (window_expired now session).
Proof. unfold window_expired. apply _. Defined.

Definition within_window (session : UserSession) (now : datetime) : Prop :=
  now - request_window_start session <= timedelta_minutes 1.

(** ** The application as a whole *)

(** [app_state = AppState()] *)
Definition initial_state : AppState := {| sessions := ∅ |}.

(** [len(app_state.sessions)], the "active_sessions" that [root] and
    [health_check] report. *)
Definition active_sessions (st : AppState) : nat := size (sessions st).

(** [periodic_cleanup], for the wake-ups of its loop before the task is
    cancelled: [wakeups] are the clock readings of the sweeps, in order. *)
Definition periodic_cleanup (wakeups : list datetime) (st : AppState) : AppState :=
  fold_left (fun st now => cleanup_expired_sessions now st) wakeups st.

(** One request to the application, with what its handler reads from
    outside the registry, or one wake-up of the cleanup task. *)
Inductive api_call :=
| CallGenerate (request : TextToMotionRequest) (x_session_id : option string) (env : GenEnv)
| CallListMotions (x_session_id : option string) (now : datetime)
| CallGetMotion (motion_id : string) (x_session_id : option string) (now : datetime)
| CallDeleteMotion (motion_id : string) (x_session_id : option string) (now : datetime)
| CallCreateSession (uuid4 : string) (now now_field : datetime)
| CallCleanup (now : datetime).

(** The registry a call leaves behind. *)
Definition serve (call : api_call) (st : AppState) : AppState :=
  match call with
  | CallGenerate request x_session_id env => (generate_motion request x_session_id env st).2
  | CallListMotions x_session_id now => (list_motions x_session_id now st).2
  | CallGetMotion motion_id x_session_id now => (get_motion motion_id x_session_id now st).2
  | CallDeleteMotion motion_id x_session_id now =>
      (delete_motion motion_id x_session_id now st).2
  | CallCreateSession uuid4 now now_field => (create_session uuid4 now now_field st).2
  | CallCleanup now => cleanup_expired_sessions now st
  end.

Definition serve_all (calls : list api_call) (st : AppState) : AppState :=
  fold_left (fun st call => serve call st) calls st.

(** The registry key of the one session a request works on, if any. *)
Definition call_key (call : api_call) : option string :=
  match call with
  | CallGenerate _ x_session_id env => Some (session_key x_session_id (env_uuid4 env))
  | CallListMotions x_session_id _ => truthy x_session_id
  | CallGetMotion _ x_session_id _ => truthy x_session_id
  | CallDeleteMotion _ x_session_id _ => truthy x_session_id
  | CallCreateSession uuid4 _ _ => Some uuid4
  | CallCleanup _ => None
  end.

(** The three handlers that look a session up without creating one. *)
Definition lookup_call (call : api_call) : bool :=
  match call with
  | CallListMotions _ _ | CallGetMotion _ _ _ | CallDeleteMotion _ _ _ => true
  | _ => false
  end.

(** What a converted record says about itself. *)
Definition record_consistent (md : MotionData) : Prop :=
  md_frame_count md = length (md_joint_pos md) ∧
  ∃ fps : Z,
    fps ≠ 0 ∧ md_fps md = inject_Z fps ∧
    md_duration md = float_quotient (Z.of_nat (md_frame_count md)) fps.

(** What holds of the session the registry keeps under [sid]. *)
Definition session_consistent (sid : string) (session : UserSession) : Prop :=
  session_id session = sid ∧
  NoDup (motions session).*1 ∧
  (∀ k m, (k, m) ∈ motions session ->
     sm_motion_id m = k ∧ record_consistent (sm_data m)) ∧
  Z.of_nat (length (motions session))
    <= Z.max 0 (MAX_STORED_MOTIONS_PER_USER config) ∧
  0 <= request_count session <= Z.max 0 (MAX_REQUESTS_PER_MINUTE config).

Definition registry_consistent (st : AppState) : Prop :=
  ∀ sid session, sessions st !! sid = Some session -> session_consistent sid session.

(** Descending order of creation time. *)
Definition newer_first (a b : MotionSummary) : Prop :=
  ms_created_at b <= ms_created_at a.

(** ** Conditions of the specification on an NPZ container *)

Definition missing_array (data : NpzFile) : Prop :=
  npz_fps data = None ∨ npz_joint_pos data = None ∨
  npz_root_pos data = None ∨ npz_root_rot data = None.

Definition leading_dims_disagree (data : NpzFile) : Prop :=
  ∃ joint_pos root_pos root_rot,
    npz_joint_pos data = Some joint_pos ∧ npz_root_pos data = Some root_pos ∧
    npz_root_rot data = Some root_rot ∧
    ¬ (length joint_pos = length root_pos ∧ length root_pos = length root_rot).

Definition frame_rate_not_positive (data : NpzFile) : Prop :=
  ∃ fps rest, npz_fps data = Some (fps :: rest) ∧ fps <= 0.

(** The payloads for which section 4.5 of the specification promises a
    conversion error. *)
Definition spec_malformed (data : NpzFile) : Prop :=
  missing_array data ∨ leading_dims_disagree data ∨ frame_rate_not_positive data.

(** The payloads on which the conversion does raise. *)
Definition fps_unusable (data : NpzFile) : Prop :=
  npz_fps data = Some [] ∨ ∃ rest, npz_fps data = Some (0 :: rest).

(** ** Sample data for the worked examples *)

Definition q (n : Z) : Q := inject_Z n.

(** Two frames at 30 fps, the three arrays agreeing. *)
Definition npz_walk : NpzFile := {|
  npz_fps := Some [30];
  npz_joint_pos := Some [[q 1; q 2]; [q 3; q 4]];
  npz_root_pos := Some [[q 0; q 0; q 1]; [q 0; q 1; q 1]];
  npz_root_rot := Some [[q 1; q 0; q 0; q 0]; [q 1; q 0; q 0; q 0]] |}.

(** Two frames of joint positions but a single root position. *)
Definition npz_uneven : NpzFile := {|
  npz_fps := Some [30];
  npz_joint_pos := Some [[q 1; q 2]; [q 3; q 4]];
  npz_root_pos := Some [[q 0; q 0; q 1]];
  npz_root_rot := Some [[q 1; q 0; q 0; q 0]; [q 1; q 0; q 0; q 0]] |}.

Definition npz_negative_fps : NpzFile := {|
  npz_fps := Some [-30];
  npz_joint_pos := Some [[q 1; q 2]; [q 3; q 4]];
  npz_root_pos := Some [[q 0; q 0; q 1]; [q 0; q 1; q 1]];
  npz_root_rot := Some [[q 1; q 0; q 0; q 0]; [q 1; q 0; q 0; q 0]] |}.

Definition npz_zero_fps : NpzFile := {|
  npz_fps := Some [0];
  npz_joint_pos := Some [[q 1; q 2]; [q 3; q 4]];
  npz_root_pos := Some [[q 0; q 0; q 1]; [q 0; q 1; q 1]];
  npz_root_rot := Some [[q 1; q 0; q 0; q 0]; [q 1; q 0; q 0; q 0]] |}.

(** An [np.load] that finds the given container in every payload. *)
Definition load_as (data : NpzFile) : bytes -> result NpzFile := fun _ => Return data.

Definition walk_record : MotionData := {|
  md_name := "clip";
  md_fps := q 30;
  md_joint_pos := [[q 1; q 2]; [q 3; q 4]];
  md_root_pos := [[q 0; q 0; q 1]; [q 0; q 1; q 1]];
  md_root_quat := [[q 1; q 0; q 0; q 0]; [q 1; q 0; q 0; q 0]];
  md_frame_count := 2;
  md_duration := float_quotient 2 30;
  md_created_at := 7 |}.

(** The text [{"error":"bad prompt","code":"INVALID_INPUT"}] of the
    specification's end-to-end example. *)
Definition dquote : string := String "034"%char String.EmptyString.

Definition bad_prompt_text : string :=
  "{" ++ dquote ++ "error" ++ dquote ++ ":" ++ dquote ++ "bad prompt" ++ dquote
  ++ "," ++ dquote ++ "code" ++ dquote ++ ":" ++ dquote ++ "INVALID_INPUT" ++ dquote ++ "}".

(** A [json.loads] that parses that one text and rejects every other. *)
Definition loads_bad_prompt (s : string) : option json :=
  if decide (s = bad_prompt_text)
  then Some (JObj [("error", JStr "bad prompt"); ("code", JStr "INVALID_INPUT")])
  else None.

Definition empty_state : AppState := {| sessions := ∅ |}.

Definition a_request : TextToMotionRequest := {|
  text := "a person walks forward";
  motion_length := q 4;
  num_inference_steps := 10;
  seed := None;
  smooth := None;
  smooth_window := 5;
  adaptive_smooth := true;
  static_start := true;
  static_frames := 2;
  blend_frames := 8;
  transition_steps := 100 |}.

Definition env_with (exchange : ws_exchange) : GenEnv := {|
  env_uuid4 := "0b5f8a3e";
  env_now_session := 1000;
  env_now_field := 1001;
  env_now_rate := 1002;
  env_exchange := exchange;
  env_stamp := "20240101_120000";
  env_uuid_hex := "9c1d2e3f4a5b";
  env_now_convert := 1003 |}.

Definition clip (created : datetime) : StoredMotion := {|
  sm_data := {| md_name := "clip"; md_fps := q 30; md_joint_pos := [];
                md_root_pos := []; md_root_quat := []; md_frame_count := 0;
                md_duration := q 0; md_created_at := created |};
  sm_motion_id := "m";
  sm_text_prompt := "walk";
  sm_parameters := {| p_motion_length := q 4; p_num_inference_steps := 10;
                      p_adaptive_smooth := true; p_static_start := true;
                      p_transition_steps := 100 |} |}.

(** A session created and last active at time 100, holding [stored]. *)
Definition session_of (sid : string) (stored : dict StoredMotion) : UserSession := {|
  session_id := sid; created_at := 100; last_activity := 100;
  motions := stored; request_count := 0; request_window_start := 100 |}.

(** A session whose store is full under [two_motions]; "m2" is the older. *)
Definition alice_full : UserSession :=
  session_of "alice" [("m1", clip 70); ("m2", clip 50)].

Definition alice_state : AppState :=
  {| sessions := {[ "alice" := session_of "alice" [("m1", clip 50)] ]} |}.

(** A store limited to two motions. *)
Definition two_motions : Config := {|
  WS_TIMEOUT := 60;
  DATA_RETENTION_MINUTES := 30;
  CLEANUP_INTERVAL_MINUTES := 5;
  MAX_STORED_MOTIONS_PER_USER := 2;
  MAX_REQUESTS_PER_MINUTE := 10 |}.

(** A session with three motions, stored in another order than created. *)
Definition busy_state : AppState :=
  {| sessions :=
       {[ "alice" := session_of "alice" [("m1", clip 70); ("m2", clip 50); ("m3", clip 90)] ]} |}.

(** A session that has used its ten requests of the window begun at 100. *)
Definition spent_session : UserSession := {|
  session_id := "alice"; created_at := 100; last_activity := 100;
  motions := []; request_count := 10; request_window_start := 100 |}.

Definition spent_state : AppState := {| sessions := {[ "alice" := spent_session ]} |}.

(** A session is created, then a client that names itself generates a
    motion, deletes nothing it has, and the cleanup task wakes up. *)
Definition some_calls : list api_call :=
  [ CallCreateSession "0b5f8a3e" 10 11;
    CallGenerate a_request (Some "alice") (env_with (WsBinary []));
    CallDeleteMotion "m9" (Some "alice") 2000;
    CallCleanup 3000 ].

(** A configuration that allows no stored motion at all. *)
Definition no_motions : Config := {|
  WS_TIMEOUT := 60;
  DATA_RETENTION_MINUTES := 30;
  CLEANUP_INTERVAL_MINUTES := 5;
  MAX_STORED_MOTIONS_PER_USER := 0;
  MAX_REQUESTS_PER_MINUTE := 10 |}.

(** ** Properties of the motion codec *)

Lemma convert_unfold npz_bytes data motion_name now :
  np_load npz_bytes = Return data ->
  convert_npz_to_motion_data npz_bytes motion_name now =
    (fps_arr ← getitem "fps" (npz_fps data);
     fps ← index0 fps_arr;
     joint_pos ← getitem "joint_pos" (npz_joint_pos data);
     root_pos ← getitem "root_pos" (npz_root_pos data);
     root_rot ← getitem "root_rot" (npz_root_rot data);
     duration ← true_div (Z.of_nat (length joint_pos)) fps;
     mret {| md_name := motion_name; md_fps := inject_Z fps;
             md_joint_pos := joint_pos; md_root_pos := root_pos;
             md_root_quat := root_rot; md_frame_count := length joint_pos;
             md_duration := duration; md_created_at := now |}).
Proof.
  intros Hload. unfold convert_npz_to_motion_data. now rewrite Hload.
Qed.

(** C1 (as the code has it): the conversion of a loaded container raises
    exactly when a required array is missing, the fps array has no first
    element, or the frame rate is zero; what it raises is a KeyError, an
    IndexError or a ZeroDivisionError, never an HTTPException. Disagreeing
    leading dimensions and a negative frame rate do not make it raise. *)
Theorem convert_raises_iff npz_bytes data motion_name now :
  np_load npz_bytes = Return data ->
  (raises (convert_npz_to_motion_data npz_bytes motion_name now)
     <-> missing_array data ∨ fps_unusable data) ∧
  (∀ e, convert_npz_to_motion_data npz_bytes motion_name now = Raise e ->
     (∃ key, e = KeyError key) ∨ e = IndexError ∨ e = ZeroDivisionError).
Proof.
  intros Hload. rewrite (convert_unfold _ _ _ _ Hload).
  unfold missing_array, fps_unusable.
  destruct data as [[[|fps rest]|] jp rp rr]; cbn.
  - by_cases.
  - destruct jp, rp, rr; cbn; try by_cases.
    unfold true_div. destruct (decide (fps = 0)); cbn; by_cases.
  - by_cases.
Qed.

(** *** The rounded division *)

Lemma round_half_even_close n m :
  0 <= n -> 0 < m -> 2 * Z.abs (round_half_even n m * m - n) <= m.
Proof.
  intros Hn Hm. unfold round_half_even.
  pose proof (Z.div_mod n m ltac:(lia)) as Hdiv.
  pose proof (Z.mod_pos_bound n m Hm) as Hmod.
  destruct (Z.ltb_spec (2 * (n mod m)) m); [nia|].
  destruct (Z.ltb_spec m (2 * (n mod m))); [nia|].
  destruct (Z.even (n / m)); nia.
Qed.

(** Below 2 ^ 1022 the divisor leaves the quotient of a positive integer in
    the normal range, where the mantissa has its 53 bits. *)
Lemma scaled_ulp a b :
  0 < a -> 0 < b -> b < 2 ^ 1022 ->
  let '(n, m) := scaled a b (ulp_exponent a b) in
  2 ^ 52 * m <= n.
Proof.
  intros Ha Hb Hsmall. unfold ulp_exponent.
  pose proof (Z.log2_spec a Ha) as [Hla _].
  pose proof (Z.log2_spec b Hb) as [_ Hlb].
  pose proof (Z.log2_nonneg a) as Hla0.
  pose proof (Z.log2_nonneg b) as Hlb0.
  assert (Hlb_small : Z.log2 b < 1022) by (apply Z.log2_lt_pow2; lia).
  set (e := Z.log2 a - Z.log2 b - 52) in *.
  destruct (scaled a b e) as [n m] eqn:Hscaled.
  destruct (Z.leb_spec (2 ^ 52 * m) n) as [Hle|Hlt].
  - rewrite Z.max_l by lia. now rewrite Hscaled.
  - rewrite Z.max_l by lia. unfold scaled. clear Hscaled Hlt n m.
    set (x := Z.max 0 (- (e - 1))). set (y := Z.max 0 (e - 1)).
    assert (Hxy : Z.succ (Z.log2 b) + (y + 52) = Z.log2 a + x) by lia.
    assert (Hpow : 2 ^ Z.succ (Z.log2 b) * 2 ^ (y + 52) = 2 ^ Z.log2 a * 2 ^ x).
    { rewrite <- !Z.pow_add_r by lia. now rewrite Hxy. }
    assert (0 < 2 ^ x) by (apply Z.pow_pos_nonneg; lia).
    assert (0 < 2 ^ (y + 52)) by (apply Z.pow_pos_nonneg; lia).
    replace (2 ^ 52 * (b * 2 ^ y)) with (b * 2 ^ (y + 52))
      by (rewrite Z.pow_add_r by lia; ring).
    nia.
Qed.

Lemma float_quotient_product a b :
  0 <= a -> b ≠ 0 -> Z.abs b < 2 ^ 1022 ->
  Qle (Qabs (Qminus (Qmult (float_quotient a b) (inject_Z b)) (inject_Z a)))
      (Qmake a (2 ^ 53)).
Proof.
  intros Ha Hb Hsmall. unfold float_quotient.
  destruct (decide (a = 0)) as [->|Hne].
  { unfold Qle, Qabs, Qminus, Qplus, Qopp, Qmult, inject_Z. cbn. lia. }
  rewrite (Z.abs_eq a) by lia.
  pose proof (scaled_ulp a (Z.abs b) ltac:(lia) ltac:(lia) Hsmall) as Hulp.
  set (e := ulp_exponent a (Z.abs b)) in *.
  unfold scaled in *.
  set (x := Z.max 0 (- e)) in *. set (y := Z.max 0 e) in *.
  set (n := a * 2 ^ x) in *. set (m := Z.abs b * 2 ^ y) in *.
  assert (Hx : 0 < 2 ^ x) by (apply Z.pow_pos_nonneg; lia).
  assert (Hy : 0 < 2 ^ y) by (apply Z.pow_pos_nonneg; lia).
  pose proof (round_half_even_close n m ltac:(subst n; nia) ltac:(subst m; nia)) as Hround.
  set (mant := round_half_even n m) in *.
  unfold Qle, Qabs, Qminus, Qplus, Qopp, Qmult, inject_Z. cbn [Qnum Qden].
  rewrite !Pos2Z.inj_mul, Z2Pos.id by lia.
  rewrite (Z.sgn_pos a) by lia.
  replace (1 * Z.sgn b * mant * 2 ^ y * b * 1 + - a * (2 ^ x * 1))
    with (mant * m - n).
  2:{ subst m n. replace (Z.abs b) with (Z.sgn b * b) by (destruct b; lia). ring. }
  change (Z.pos (2 ^ 53)) with (2 * 2 ^ 52).
  fold n. nia.
Qed.

(** The relative error of the division is at most 2 ^ -53. *)
Lemma float_quotient_close a b :
  0 <= a -> b ≠ 0 -> Z.abs b < 2 ^ 1022 ->
  Qle (Qabs (Qminus (float_quotient a b) (Qdiv (inject_Z a) (inject_Z b))))
      (Qmult (Qmake 1 (2 ^ 53)) (Qabs (Qdiv (inject_Z a) (inject_Z b)))).
Proof.
  intros Ha Hb Hsmall.
  pose proof (float_quotient_product a b Ha Hb Hsmall) as Hproduct.
  assert (Hb' : ¬ Qeq (inject_Z b) (inject_Z 0)).
  { unfold Qeq. cbn. lia. }
  assert (Hdiff : Qeq (Qminus (float_quotient a b) (Qdiv (inject_Z a) (inject_Z b)))
                      (Qdiv (Qminus (Qmult (float_quotient a b) (inject_Z b)) (inject_Z a))
                            (inject_Z b))).
  { field. exact Hb'. }
  rewrite Hdiff. unfold Qdiv. rewrite !Qabs_Qmult.
  rewrite Qmult_assoc.
  apply Qmult_le_compat_r; [|apply Qabs_nonneg].
  eapply Qle_trans; [exact Hproduct|].
  rewrite (Qabs_pos (inject_Z a)) by (unfold Qle; cbn; lia).
  unfold Qle, Qmult, inject_Z. cbn. lia.
Qed.

(** C8 (as the code has it): a payload that decodes has a first frame
    rate other than zero and its three per-frame arrays; the record's
    frame_count is the leading dimension F of joint_pos; its duration is F
    divided by fps within floating-point tolerance: it is the double
    nearest the quotient, at most 2 ^ -53 of the quotient away from it for
    every frame rate below 2 ^ 1022 in magnitude; and each per-frame
    sequence has as many elements as the array it comes from: F for all
    three only when the arrays agree on their leading dimension. *)
Theorem converted_record_shape npz_bytes data motion_name now md :
  np_load npz_bytes = Return data ->
  convert_npz_to_motion_data npz_bytes motion_name now = Return md ->
  ∃ fps rest joint_pos root_pos root_rot,
    npz_fps data = Some (fps :: rest) ∧ fps ≠ 0 ∧
    npz_joint_pos data = Some joint_pos ∧
    npz_root_pos data = Some root_pos ∧
    npz_root_rot data = Some root_rot ∧
    md_frame_count md = length joint_pos ∧
    md_duration md = float_quotient (Z.of_nat (length joint_pos)) fps ∧
    (Z.abs fps < 2 ^ 1022 ->
     Qle (Qabs (Qminus (md_duration md)
                  (Qdiv (inject_Z (Z.of_nat (md_frame_count md))) (inject_Z fps))))
         (Qmult (Qmake 1 (2 ^ 53))
            (Qabs (Qdiv (inject_Z (Z.of_nat (md_frame_count md))) (inject_Z fps))))) ∧
    length (md_joint_pos md) = md_frame_count md ∧
    length (md_root_pos md) = length root_pos ∧
    length (md_root_quat md) = length root_rot ∧
    (length root_pos = length joint_pos -> length root_rot = length joint_pos ->
     length (md_root_pos md) = md_frame_count md ∧
     length (md_root_quat md) = md_frame_count md).
Proof.
  intros Hload. rewrite (convert_unfold _ _ _ _ Hload).
  destruct data as [[[|fps rest]|] [jp|] [rp|] [rr|]]; cbn; try discriminate.
  unfold true_div. destruct (decide (fps = 0)) as [|Hfps]; cbn; [discriminate|].
  intros [= <-]. exists fps, rest, jp, rp, rr. cbn.
  repeat split; try done; try congruence.
  intros Hsmall. apply float_quotient_close; [lia|done|done].
Qed.

(** ** Properties of the session registry *)

(** C2 (as the code has it): a supplied, known id gives the registered
    session with last_activity set to now; a supplied id the registry does
    not know gives a new session registered under that very id; only an
    absent (or empty) id gives a new session under the generated uuid.  In
    every case the returned session is what the registry then holds, and a
    new session under an id not in use leaves the other sessions alone. *)
Theorem get_or_create_session_cases supplied uuid4 now now_field st :
  let r := get_or_create_session supplied uuid4 now now_field st in
  match truthy supplied with
  | Some sid =>
      match sessions st !! sid with
      | Some known =>
          r.1 = set_last_activity now known ∧ last_activity r.1 = now ∧
          sessions r.2 = <[sid := r.1]> (sessions st)
      | None =>
          r.1 = new_session sid now now_field ∧ session_id r.1 = sid ∧
          sessions r.2 = <[sid := r.1]> (sessions st) ∧
          sessions st ⊆ sessions r.2
      end
  | None =>
      r.1 = new_session uuid4 now now_field ∧ session_id r.1 = uuid4 ∧
      sessions r.2 = <[uuid4 := r.1]> (sessions st) ∧
      (sessions st !! uuid4 = None ->
       sessions st ⊆ sessions r.2 ∧ size (sessions r.2) = S (size (sessions st)))
  end.
Proof.
  unfold get_or_create_session, known_session. cbn.
  destruct (truthy supplied) as [sid|] eqn:Hsid; cbn.
  - destruct (sessions st !! sid) as [known|] eqn:Hknown; cbn.
    + done.
    + repeat split. now apply insert_subseteq.
  - repeat split.
    + now apply insert_subseteq.
    + now apply map_size_insert_None.
Qed.

Lemma known_session_unknown sid st :
  sessions st !! sid = None -> known_session (Some sid) st = None.
Proof.
  intros Hsid. unfold known_session. cbn.
  destruct (decide (sid = String.EmptyString)); cbn; [done|].
  now rewrite Hsid.
Qed.

Lemma known_session_known sid st session :
  sid ≠ String.EmptyString -> sessions st !! sid = Some session ->
  known_session (Some sid) st = Some (sid, session).
Proof.
  intros Hne Hsid. unfold known_session. cbn.
  rewrite decide_False by done. cbn. now rewrite Hsid.
Qed.

Lemma is_expired_true now session :
  is_expired now session = true <->
  now - last_activity session > timedelta_minutes (DATA_RETENTION_MINUTES config) ∨
  now - created_at session > timedelta_hours 2.
Proof.
  unfold is_expired. rewrite orb_true_iff, !Z.gtb_gt. reflexivity.
Qed.

Lemma lookup_fold_delete (l : list string) (m : gmap string UserSession) k :
  fold_left (fun m sid => delete sid m) l m !! k =
  if decide (k ∈ l) then None else m !! k.
Proof.
  revert m. induction l as [|sid l IH]; intros m; cbn.
  - rewrite decide_False; [done|]. apply not_elem_of_nil.
  - rewrite IH. destruct (decide (k ∈ l)) as [Hin|Hnin].
    + rewrite decide_True; [done|]. now right.
    + destruct (decide (k = sid)) as [->|Hne].
      * rewrite decide_True; [|now left]. apply lookup_delete_eq.
      * rewrite decide_False.
        -- now apply lookup_delete_ne.
        -- intros [?|?]%elem_of_cons; done.
Qed.

Lemma cleanup_lookup now st sid :
  sessions (cleanup_expired_sessions now st) !! sid =
  match sessions st !! sid with
  | Some session => if is_expired now session then None else Some session
  | None => None
  end.
Proof.
  unfold cleanup_expired_sessions. cbn. rewrite lookup_fold_delete.
  destruct (decide _) as [Hin|Hnin].
  - apply list_elem_of_fmap in Hin as [[k session] [-> Hin]].
    apply list_elem_of_filter in Hin as [Hexp Hin].
    apply elem_of_map_to_list in Hin. cbn in *.
    now rewrite Hin, Hexp.
  - destruct (sessions st !! sid) as [session|] eqn:Hsid; [|done].
    destruct (is_expired now session) eqn:Hexp; [|done].
    exfalso. apply Hnin.
    apply list_elem_of_fmap. exists (sid, session). split; [done|].
    apply list_elem_of_filter. split; [done|].
    now apply elem_of_map_to_list.
Qed.

(** C5: the sweep at [now] removes a session exactly when it has been idle
    for more than the retention window or is older than two hours, and
    keeps every other session as it is; a session created and last active
    at t is removed by a sweep at t + retention + 1 minute; after the
    removal [get_motion] under the former id answers 404 for every motion
    id. *)
Theorem cleanup_removes_exactly_expired now st sid :
  (sessions (cleanup_expired_sessions now st) !! sid =
     match sessions st !! sid with
     | Some session =>
         if decide (now - last_activity session
                      > timedelta_minutes (DATA_RETENTION_MINUTES config)
                    ∨ now - created_at session > timedelta_hours 2)
         then None else Some session
     | None => None
     end) ∧
  (∀ session, sessions st !! sid = Some session ->
     0 <= DATA_RETENTION_MINUTES config ->
     last_activity session = created_at session ->
     now = created_at session
           + timedelta_minutes (DATA_RETENTION_MINUTES config + 1) ->
     sessions (cleanup_expired_sessions now st) !! sid = None) ∧
  (sessions (cleanup_expired_sessions now st) !! sid = None ->
   ∀ motion_id later,
     get_motion motion_id (Some sid) later (cleanup_expired_sessions now st)
     = (Raise (HTTPException 404 (DetailStr "Session not found")),
        cleanup_expired_sessions now st)).
Proof.
  split; [|split].
  - rewrite cleanup_lookup. destruct (sessions st !! sid) as [session|]; [|done].
    destruct (is_expired now session) eqn:Hexp.
    + rewrite decide_True; [done|]. now apply is_expired_true.
    + rewrite decide_False; [done|]. rewrite <- is_expired_true. congruence.
  - intros session Hsid Hret Hidle ->. rewrite cleanup_lookup, Hsid.
    replace (is_expired _ session) with true; [done|].
    symmetry. apply is_expired_true. left. rewrite Hidle.
    unfold timedelta_minutes. lia.
  - intros Hgone motion_id later. unfold get_motion.
    now rewrite known_session_unknown.
Qed.

(** ** Properties of the rate limiter *)

Lemma set_request_count_id session :
  set_request_count (request_count session) session = session.
Proof. now destruct session. Qed.

Lemma check_rate_limit_reject now session :
  within_window session now ->
  MAX_REQUESTS_PER_MINUTE config <= request_count session ->
  check_rate_limit now session = (false, session).
Proof.
  unfold within_window, check_rate_limit. intros Hwin Hfull.
  destruct (Z.gtb_spec (now - request_window_start session) (timedelta_minutes 1)); [lia|].
  destruct (Z.geb_spec (request_count session) (MAX_REQUESTS_PER_MINUTE config)); [done|lia].
Qed.

Lemma check_rate_limit_admit now session :
  within_window session now ->
  request_count session < MAX_REQUESTS_PER_MINUTE config ->
  check_rate_limit now session
  = (true, set_request_count (request_count session + 1) session).
Proof.
  unfold within_window, check_rate_limit. intros Hwin Hfree.
  destruct (Z.gtb_spec (now - request_window_start session) (timedelta_minutes 1)); [lia|].
  destruct (Z.geb_spec (request_count session) (MAX_REQUESTS_PER_MINUTE config)); [lia|done].
Qed.

Lemma check_rate_limits_admit times :
  ∀ session,
    Forall (within_window session) times ->
    request_count session + Z.of_nat (length times) <= MAX_REQUESTS_PER_MINUTE config ->
    check_rate_limits times session
    = (replicate (length times) true,
       set_request_count (request_count session + Z.of_nat (length times)) session).
Proof.
  induction times as [|now times IH]; intros session Hwin Hroom;
    cbn [check_rate_limits length] in *.
  - cbn. now rewrite Z.add_0_r, set_request_count_id.
  - apply Forall_cons in Hwin as [Hnow Hwin].
    rewrite check_rate_limit_admit by (done || lia).
    rewrite (IH (set_request_count (request_count session + 1) session)).
    + replace (request_count session + Z.of_nat (S (length times)))
        with (request_count session + 1 + Z.of_nat (length times)) by lia.
      reflexivity.
    + exact Hwin.
    + cbn. lia.
Qed.

(** C3: an admission check first opens a new window (count 0, start now)
    when more than one minute has passed since the window start; then, with
    the count at or above the ceiling it rejects and leaves that state as it
    is, and otherwise it admits and adds one to the count.  Hence N checks
    within the window of a session whose count is 0 are all admitted and
    leave the count at N, as long as N does not exceed the ceiling, and when
    N is the ceiling the next check within the window is rejected; the same
    holds when the first of the checks is the one that opens the window. *)
Theorem rate_limit_window now session :
  let opened :=
    if decide (window_expired now session)
    then set_request_window_start now (set_request_count 0 session)
    else session in
  (MAX_REQUESTS_PER_MINUTE config <= request_count opened ->
   check_rate_limit now session = (false, opened)) ∧
  (request_count opened < MAX_REQUESTS_PER_MINUTE config ->
   check_rate_limit now session
   = (true, set_request_count (request_count opened + 1) opened)) ∧
  (∀ times,
     Forall (within_window opened) times ->
     request_count opened = 0 ->
     Z.of_nat (length times) <= MAX_REQUESTS_PER_MINUTE config ->
     let after := (check_rate_limits times opened).2 in
     (check_rate_limits times opened).1 = replicate (length times) true ∧
     request_count after = Z.of_nat (length times) ∧
     request_window_start after = request_window_start opened ∧
     (Z.of_nat (length times) = MAX_REQUESTS_PER_MINUTE config ->
      ∀ next, within_window opened next ->
        check_rate_limit next after = (false, after))) ∧
  (∀ times,
     window_expired now session ->
     Forall (within_window opened) times ->
     Z.of_nat (S (length times)) <= MAX_REQUESTS_PER_MINUTE config ->
     let after := (check_rate_limits (now :: times) session).2 in
     (check_rate_limits (now :: times) session).1
       = replicate (S (length times)) true ∧
     request_count after = Z.of_nat (S (length times)) ∧
     request_window_start after = now ∧
     (Z.of_nat (S (length times)) = MAX_REQUESTS_PER_MINUTE config ->
      ∀ next, next - now <= timedelta_minutes 1 ->
        check_rate_limit next after = (false, after))).
Proof.
  cbn zeta. unfold window_expired.
  set (opened := if decide _ then _ else _).
  assert (Hstep1 :
    (if now - request_window_start session >? timedelta_minutes 1
     then set_request_window_start now (set_request_count 0 session)
     else session) = opened).
  { subst opened.
    destruct (Z.gtb_spec (now - request_window_start session) (timedelta_minutes 1)).
    - rewrite decide_True; [done|lia].
    - rewrite decide_False; [done|lia]. }
  assert (Hreject : MAX_REQUESTS_PER_MINUTE config <= request_count opened ->
                    check_rate_limit now session = (false, opened)).
  { intros Hfull. unfold check_rate_limit. cbn zeta. rewrite Hstep1.
    destruct (Z.geb_spec (request_count opened) (MAX_REQUESTS_PER_MINUTE config)); [done|lia]. }
  assert (Hadmit : request_count opened < MAX_REQUESTS_PER_MINUTE config ->
                   check_rate_limit now session
                   = (true, set_request_count (request_count opened + 1) opened)).
  { intros Hfree. unfold check_rate_limit. cbn zeta. rewrite Hstep1.
    destruct (Z.geb_spec (request_count opened) (MAX_REQUESTS_PER_MINUTE config)); [lia|done]. }
  split; [exact Hreject|]. split; [exact Hadmit|]. split.
  - intros times Hwin Hzero Hroom.
    rewrite check_rate_limits_admit by (done || lia).
    cbn [fst snd]. rewrite Hzero, Z.add_0_l.
    repeat split.
    intros Hfull next Hnext. apply check_rate_limit_reject; [exact Hnext|cbn; lia].
  - intros times Hexp Hwin Hroom.
    assert (Hopened : opened = set_request_window_start now (set_request_count 0 session)).
    { subst opened. rewrite decide_True; [done|lia]. }
    cbn [check_rate_limits]. rewrite Hadmit by (rewrite Hopened; cbn; lia).
    rewrite check_rate_limits_admit; [|exact Hwin|rewrite Hopened; cbn [request_count set_request_count set_request_window_start length]; lia].
    cbn [fst snd replicate]. rewrite Hopened.
    cbn [request_count request_window_start set_request_count set_request_window_start].
    repeat split; [lia|].
    intros Hfull next Hnext. apply check_rate_limit_reject.
    + unfold within_window. cbn. exact Hnext.
    + cbn. lia.
Qed.

(** ** Properties of the motion store *)

Section Dict.
Context {V : Type}.
Implicit Types (d : dict V) (k : string) (v : V).

Lemma dict_get_elem_of k v d : dict_get k d = Some v -> (k, v) ∈ d.
Proof.
  induction d as [|[k' v'] d IH]; cbn; [done|].
  destruct (decide (k = k')) as [->|]; [intros [= ->]; now left|].
  intros Hget. right. auto.
Qed.

Lemma elem_of_dict_get k v d : NoDup d.*1 -> (k, v) ∈ d -> dict_get k d = Some v.
Proof.
  induction d as [|[k' v'] d IH]; cbn; intros Hnodup Hin.
  - now apply elem_of_nil in Hin.
  - apply NoDup_cons in Hnodup as [Hfresh Hnodup].
    apply elem_of_cons in Hin as [[= -> ->]|Hin].
    + now rewrite decide_True.
    + rewrite decide_False; [auto|].
      intros ->. apply Hfresh. now apply (list_elem_of_fmap_2 fst) in Hin.
Qed.

Lemma dict_set_length k v d : (length (dict_set k v d) <= S (length d))%nat.
Proof.
  induction d as [|[k' v'] d IH]; cbn; [lia|].
  destruct (decide (k = k')); cbn; lia.
Qed.

Lemma dict_del_length k d : k ∈ d.*1 -> S (length (dict_del k d)) = length d.
Proof.
  induction d as [|[k' v'] d IH]; cbn; intros Hin.
  - now apply elem_of_nil in Hin.
  - destruct (decide (k = k')) as [|Hne]; [done|]. cbn. f_equal. apply IH.
    apply elem_of_cons in Hin as [|]; done.
Qed.

Lemma dict_del_keys k k' d : k' ∈ (dict_del k d).*1 -> k' ∈ d.*1.
Proof.
  induction d as [|[k0 v0] d IH]; cbn; [done|].
  destruct (decide (k = k0)); cbn.
  - now right.
  - intros [->|Hin]%elem_of_cons; [now left|right; auto].
Qed.

Lemma dict_del_NoDup k d : NoDup d.*1 -> NoDup (dict_del k d).*1.
Proof.
  induction d as [|[k0 v0] d IH]; cbn; [done|].
  intros [Hfresh Hnodup]%NoDup_cons. destruct (decide (k = k0)); cbn; [done|].
  apply NoDup_cons. split; [|auto]. intros Hin. apply Hfresh.
  now apply dict_del_keys in Hin.
Qed.

Lemma dict_get_del_ne k k' d : k' ≠ k -> dict_get k' (dict_del k d) = dict_get k' d.
Proof.
  intros Hne. induction d as [|[k0 v0] d IH]; cbn; [done|].
  destruct (decide (k = k0)) as [<-|]; cbn.
  - now rewrite decide_False.
  - now rewrite IH.
Qed.

Lemma dict_get_None k d : k ∉ d.*1 -> dict_get k d = None.
Proof.
  induction d as [|[k0 v0] d IH]; cbn; [done|].
  intros Hnin. rewrite decide_False.
  - apply IH. intros Hin. apply Hnin. now right.
  - intros ->. apply Hnin. now left.
Qed.

Lemma dict_get_del_eq k d : NoDup d.*1 -> dict_get k (dict_del k d) = None.
Proof.
  induction d as [|[k0 v0] d IH]; cbn; [done|].
  intros [Hfresh Hnodup]%NoDup_cons. destruct (decide (k = k0)) as [->|Hne]; cbn.
  - now apply dict_get_None.
  - rewrite decide_False by done. auto.
Qed.

Lemma dict_set_keys k v k' d : k' ∈ (dict_set k v d).*1 -> k' = k ∨ k' ∈ d.*1.
Proof.
  induction d as [|[k0 v0] d IH]; cbn.
  - intros [->|Hin]%elem_of_cons; [now left|now right].
  - destruct (decide (k = k0)) as [->|]; cbn.
    + intros Hin. now right.
    + intros [->|Hin]%elem_of_cons; [right; now left|].
      destruct (IH Hin); [now left|right; now right].
Qed.

Lemma dict_set_NoDup k v d : NoDup d.*1 -> NoDup (dict_set k v d).*1.
Proof.
  induction d as [|[k0 v0] d IH]; cbn.
  - intros _. apply NoDup_singleton.
  - intros [Hfresh Hnodup]%NoDup_cons. destruct (decide (k = k0)) as [->|Hne]; cbn.
    + now apply NoDup_cons.
    + apply NoDup_cons. split; [|auto].
      intros [->|Hin]%dict_set_keys; done.
Qed.

Variable f : V -> Z.

Lemma min_step_fold d : ∀ best,
  let r := fold_left (min_step f) d best in
  (r = best ∨ r ∈ d) ∧ f r.2 <= f best.2 ∧ ∀ kv, kv ∈ d -> f r.2 <= f kv.2.
Proof.
  induction d as [|kv d IH]; intros best; cbn.
  - split; [now left|]. split; [lia|]. intros kv Hin. now apply elem_of_nil in Hin.
  - destruct (IH (min_step f best kv)) as (Hr & Hle & Hall).
    assert (Hstep : (min_step f best kv = best ∨ min_step f best kv = kv) ∧
                    f (min_step f best kv).2 <= f best.2 ∧
                    f (min_step f best kv).2 <= f kv.2).
    { unfold min_step. destruct (Z.ltb_spec (f kv.2) (f best.2)); split; auto; lia. }
    destruct Hstep as (Hwhich & Hle1 & Hle2).
    split; [|split].
    + destruct Hr as [->|Hin]; [|right; now right].
      destruct Hwhich as [->| ->]; [now left|right; now left].
    + lia.
    + intros kv' [->|Hin]%elem_of_cons; [lia|]. now apply Hall.
Qed.

Lemma dict_min_key_spec d :
  d ≠ [] ->
  ∃ k v, dict_min_key f d = Return k ∧ (k, v) ∈ d ∧
         ∀ k' v', (k', v') ∈ d -> f v <= f v'.
Proof.
  destruct d as [|kv d]; [done|]. intros _. cbn.
  destruct (min_step_fold d kv) as (Hr & Hle & Hall).
  destruct (fold_left (min_step f) d kv) as [k v] eqn:Hfold. cbn in *.
  exists k, v. split; [done|]. split.
  - destruct Hr as [<-|Hin]; [now left|now right].
  - intros k' v' [<-|Hin]%elem_of_cons; [done|]. now apply (Hall (k', v')).
Qed.

End Dict.

Lemma enforce_motion_limit_below session :
  Z.of_nat (length (motions session)) < MAX_STORED_MOTIONS_PER_USER config ->
  enforce_motion_limit session = Return session.
Proof.
  intros Hlt. unfold enforce_motion_limit.
  destruct (Z.geb_spec (Z.of_nat (length (motions session)))
              (MAX_STORED_MOTIONS_PER_USER config)); [lia|done].
Qed.

Lemma enforce_motion_limit_full session :
  MAX_STORED_MOTIONS_PER_USER config <= Z.of_nat (length (motions session)) ->
  motions session ≠ [] ->
  ∃ oldest_id oldest,
    (oldest_id, oldest) ∈ motions session ∧
    (∀ k m, (k, m) ∈ motions session -> sm_created_at oldest <= sm_created_at m) ∧
    enforce_motion_limit session
    = Return (set_motions (dict_del oldest_id (motions session)) session).
Proof.
  intros Hfull Hne. unfold enforce_motion_limit.
  destruct (Z.geb_spec (Z.of_nat (length (motions session)))
              (MAX_STORED_MOTIONS_PER_USER config)); [|lia].
  destruct (dict_min_key_spec sm_created_at (motions session) Hne)
    as (k & v & Hmin & Hin & Hleast).
  exists k, v. rewrite Hmin. cbn. auto.
Qed.

Lemma store_motion_length motion_id motion_data session :
  Z.of_nat (length (motions session)) <= MAX_STORED_MOTIONS_PER_USER config ->
  match store_motion motion_id motion_data session with
  | Return session' =>
      Z.of_nat (length (motions session')) <= MAX_STORED_MOTIONS_PER_USER config
  | Raise _ => True
  end.
Proof.
  intros Hbound. unfold store_motion.
  destruct (decide (Z.of_nat (length (motions session))
                    < MAX_STORED_MOTIONS_PER_USER config)) as [Hlt|Hge].
  - rewrite enforce_motion_limit_below by done. cbn.
    pose proof (dict_set_length motion_id motion_data (motions session)). lia.
  - destruct (motions session) as [|kv d] eqn:Hmotions.
    + unfold enforce_motion_limit. rewrite Hmotions. cbn in *.
      destruct (Z.geb_spec (Z.of_nat 0) (MAX_STORED_MOTIONS_PER_USER config)); [done|lia].
    + destruct (enforce_motion_limit_full session) as (k & v & Hin & _ & ->).
      * rewrite Hmotions. lia.
      * now rewrite Hmotions.
      * cbn. rewrite Hmotions in *.
        pose proof (dict_set_length motion_id motion_data (dict_del k (kv :: d))).
        pose proof (dict_del_length k (kv :: d) (list_elem_of_fmap_2 fst _ _ Hin)).
        cbn [length] in *. lia.
Qed.

Lemma store_motion_NoDup motion_id motion_data session :
  NoDup (motions session).*1 ->
  match store_motion motion_id motion_data session with
  | Return session' => NoDup (motions session').*1
  | Raise _ => True
  end.
Proof.
  intros Hnodup. unfold store_motion, enforce_motion_limit.
  destruct (_ >=? _); cbn; [|now apply dict_set_NoDup].
  destruct (dict_min_key _ _); cbn; [|done].
  now apply dict_set_NoDup, dict_del_NoDup.
Qed.

(** C4: starting from a store of at most K records, any sequence of
    inserts leaves at most K records, in particular from the empty store of
    a new session; the ids stay distinct; and an insert into a store that
    holds exactly K > 0 records returns, having removed exactly one record,
    which is stored under [oldest_id] and whose created_at is least among
    the records held before the insert, and having kept every other
    record. *)
Theorem motion_store_bounded :
  (∀ inserts session,
     Z.of_nat (length (motions session)) <= MAX_STORED_MOTIONS_PER_USER config ->
     Z.of_nat (length (motions (store_motions inserts session)))
       <= MAX_STORED_MOTIONS_PER_USER config) ∧
  (∀ inserts sid now now_field,
     0 <= MAX_STORED_MOTIONS_PER_USER config ->
     Z.of_nat (length (motions (store_motions inserts (new_session sid now now_field))))
       <= MAX_STORED_MOTIONS_PER_USER config) ∧
  (∀ inserts session,
     NoDup (motions session).*1 ->
     NoDup (motions (store_motions inserts session)).*1) ∧
  (∀ session motion_id motion_data,
     Z.of_nat (length (motions session)) = MAX_STORED_MOTIONS_PER_USER config ->
     0 < MAX_STORED_MOTIONS_PER_USER config ->
     NoDup (motions session).*1 ->
     ∃ oldest_id oldest,
       dict_get oldest_id (motions session) = Some oldest ∧
       (∀ k m, (k, m) ∈ motions session -> sm_created_at oldest <= sm_created_at m) ∧
       store_motion motion_id motion_data session
       = Return (set_motions
                   (dict_set motion_id motion_data
                      (dict_del oldest_id (motions session))) session) ∧
       S (length (dict_del oldest_id (motions session))) = length (motions session) ∧
       dict_get oldest_id (dict_del oldest_id (motions session)) = None ∧
       (∀ k, k ≠ oldest_id ->
          dict_get k (dict_del oldest_id (motions session))
          = dict_get k (motions session))).
Proof.
  assert (Hbound : ∀ inserts session,
     Z.of_nat (length (motions session)) <= MAX_STORED_MOTIONS_PER_USER config ->
     Z.of_nat (length (motions (store_motions inserts session)))
       <= MAX_STORED_MOTIONS_PER_USER config).
  { induction inserts as [|[motion_id motion_data] inserts IH];
      intros session Hbound; cbn; [done|].
    pose proof (store_motion_length motion_id motion_data session Hbound) as Hstep.
    destruct (store_motion motion_id motion_data session) as [session'|e]; now apply IH. }
  split; [exact Hbound|]. split; [|split].
  - intros inserts sid now now_field Hpos. apply Hbound. cbn. lia.
  - induction inserts as [|[motion_id motion_data] inserts IH];
      intros session Hnodup; cbn; [done|].
    pose proof (store_motion_NoDup motion_id motion_data session Hnodup) as Hstep.
    destruct (store_motion motion_id motion_data session) as [session'|e]; now apply IH.
  - intros session motion_id motion_data Hfull Hpos Hnodup.
    destruct (enforce_motion_limit_full session) as (k & v & Hin & Hleast & Henforce).
    + lia.
    + intros Hnil. rewrite Hnil in Hfull. cbn in Hfull. lia.
    + exists k, v. split; [now apply elem_of_dict_get|].
      split; [exact Hleast|]. split.
      * unfold store_motion. now rewrite Henforce.
      * split; [apply dict_del_length; now apply (list_elem_of_fmap_2 fst) in Hin|].
        split; [now apply dict_get_del_eq|].
        intros k' Hne. now apply dict_get_del_ne.
Qed.

(** ** Properties of the generate handler *)

Lemma stored_motions_store_session sid session st sid' :
  stored_motions (store_session sid session st) sid'
  = if decide (sid' = sid) then motions session else stored_motions st sid'.
Proof.
  unfold stored_motions, store_session. cbn.
  destruct (decide (sid' = sid)) as [->|Hne].
  - now rewrite lookup_insert_eq.
  - now rewrite lookup_insert_ne.
Qed.

Lemma check_rate_limit_motions now session :
  motions (check_rate_limit now session).2 = motions session.
Proof.
  unfold check_rate_limit.
  destruct (_ >? _); cbn; destruct (_ >=? _); reflexivity.
Qed.

Lemma admission_no_motion_created x_session_id env st :
  no_motion_created st (admission x_session_id env st).2.
Proof.
  unfold admission, get_or_create_session, session_key.
  intros sid motion_id motion.
  destruct (known_session x_session_id st) as [[key known]|] eqn:Hknown.
  - unfold known_session in Hknown.
    destruct (truthy x_session_id) as [key'|]; cbn in Hknown; [|done].
    destruct (sessions st !! key') as [known'|] eqn:Hkey; cbn in Hknown; [|done].
    injection Hknown as -> ->. cbn [default].
    pose proof (check_rate_limit_motions (env_now_rate env)
                  (set_last_activity (env_now_session env) known)) as Hmotions.
    destruct (check_rate_limit _ _) as [admitted session]. cbn in *.
    rewrite !stored_motions_store_session.
    destruct (decide (sid = key)) as [->|]; [|done].
    rewrite Hmotions. unfold stored_motions. now rewrite Hkey.
  - pose proof (check_rate_limit_motions (env_now_rate env)
                  (new_session (default (env_uuid4 env) (truthy x_session_id))
                     (env_now_session env) (env_now_field env))) as Hmotions.
    destruct (check_rate_limit _ _) as [admitted session]. cbn in *.
    rewrite !stored_motions_store_session.
    destruct (decide (sid = _)) as [->|]; [|done].
    now rewrite Hmotions.
Qed.

Lemma generate_motion_raise request x_session_id env st session st1 e :
  admission x_session_id env st = (true, session, st1) ->
  generate_attempt request env session = Raise e ->
  generate_motion request x_session_id env st
  = (Raise match e with
           | HTTPException status detail => HTTPException status detail
           | _ => http_error 500 ("Failed to generate motion: " ++ exn_str e)
                    "GENERATION_FAILED"
           end, st1).
Proof.
  intros Hadm Hraise. unfold generate_motion. rewrite Hadm. cbn.
  rewrite Hraise. now destruct e.
Qed.

Lemma generate_attempt_remote_raise request env session e :
  generate_motion_from_remote (env_exchange env) = Raise e ->
  generate_attempt request env session = Raise e.
Proof. intros Hremote. unfold generate_attempt. now rewrite Hremote. Qed.

(** A remote failure of an admitted request: what the client receives and
    what the registry holds afterwards. *)
Lemma generate_motion_remote_failure request x_session_id env st status error code :
  (admission x_session_id env st).1.1 = true ->
  generate_motion_from_remote (env_exchange env)
  = Raise (HTTPException status (DetailDict error code)) ->
  let r := generate_motion request x_session_id env st in
  ∃ e, r.1 = Raise e ∧
       error_envelope e = {| resp_status := status; resp_success := false;
                             resp_error := error; resp_code := code |} ∧
       r.2 = (admission x_session_id env st).2 ∧
       no_motion_created st r.2.
Proof.
  intros Hadm Hremote.
  pose proof (admission_no_motion_created x_session_id env st) as Hnone.
  destruct (admission x_session_id env st) as [[admitted session] st1] eqn:Hadmission.
  cbn in Hadm. subst admitted.
  cbn zeta. rewrite (generate_motion_raise _ _ _ _ _ _ _ Hadmission
                       (generate_attempt_remote_raise request _ session _ Hremote)).
  eexists. split; [reflexivity|]. cbn. auto.
Qed.

Lemma except_clauses_masks e :
  e ≠ TimeoutError -> except_clauses e = connection_refused_missing.
Proof. intros Hne. now destruct e. Qed.

Lemma remote_text_masked response :
  generate_motion_from_remote (WsText response) = Raise connection_refused_missing.
Proof.
  unfold generate_motion_from_remote.
  destruct (json_loads response) as [error_data|]; [|reflexivity].
  now destruct error_data.
Qed.

(** An admitted request whose exchange ends in the masking AttributeError:
    what the client receives and what the registry holds afterwards. *)
Lemma generate_motion_masked request x_session_id env st :
  (admission x_session_id env st).1.1 = true ->
  generate_motion_from_remote (env_exchange env) = Raise connection_refused_missing ->
  let r := generate_motion request x_session_id env st in
  r.1 = Raise (http_error 500
                 ("Failed to generate motion: " ++ exn_str connection_refused_missing)
                 "GENERATION_FAILED") ∧
  r.2 = (admission x_session_id env st).2 ∧
  no_motion_created st r.2.
Proof.
  intros Hadm Hremote.
  pose proof (admission_no_motion_created x_session_id env st) as Hnone.
  destruct (admission x_session_id env st) as [[admitted session] st1] eqn:Hadmission.
  cbn in Hadm. subst admitted.
  cbn zeta. rewrite (generate_motion_raise _ _ _ _ _ _ _ Hadmission
                       (generate_attempt_remote_raise request _ session _ Hremote)).
  cbn. auto.
Qed.

(** C6 (where the code departs from it): the error raised for a textual
    response never leaves generate_motion_from_remote.  It is no
    TimeoutError, so the except clauses go on to evaluate the undefined
    websockets.exceptions.ConnectionRefused: for every textual response,
    whether it parses or not and whatever it parses to, the client raises
    that AttributeError.  An admitted generate request then answers 500
    with code GENERATION_FAILED and the AttributeError's text, not the error
    and code the remote server sent nor INVALID_RESPONSE; no motion is
    stored.  A binary response is returned unchanged. *)
Theorem remote_error_response_masked :
  (∀ response,
     generate_motion_from_remote (WsText response) = Raise connection_refused_missing) ∧
  (∀ payload, generate_motion_from_remote (WsBinary payload) = Return payload) ∧
  (∀ request x_session_id env st response,
     (admission x_session_id env st).1.1 = true ->
     env_exchange env = WsText response ->
     let r := generate_motion request x_session_id env st in
     ∃ e, r.1 = Raise e ∧
          error_envelope e
          = {| resp_status := 500; resp_success := false;
               resp_error :=
                 JStr ("Failed to generate motion: "
                       ++ "module 'websockets.exceptions' has no attribute 'ConnectionRefused'");
               resp_code := JStr "GENERATION_FAILED" |} ∧
          no_motion_created st r.2).
Proof.
  split; [exact remote_text_masked|]. split; [reflexivity|].
  intros request x_session_id env st response Hadm Hexchange.
  destruct (generate_motion_masked request x_session_id env st Hadm) as (Hraise & _ & Hnone).
  - rewrite Hexchange. apply remote_text_masked.
  - eexists. split; [exact Hraise|]. split; [reflexivity|exact Hnone].
Qed.

(** C7 (where the code departs from it): of the three transport failures
    only the timeout is mapped.  The TimeoutError of the response deadline
    gives the 504 error with code TIMEOUT.  Every other exception of the
    exchange, a refused connection and any websockets exception among them,
    is replaced by the AttributeError of the undefined
    websockets.exceptions.ConnectionRefused, so that an admitted generate
    request answers 500 with code GENERATION_FAILED where 503
    SERVER_UNAVAILABLE or 502 was meant.  In every case the request ends by
    raising and no motion is stored. *)
Theorem transport_failure_masked :
  generate_motion_from_remote (WsRaised TimeoutError)
  = Raise (http_error 504 "Request timeout - generation took too long" "TIMEOUT") ∧
  (∀ failure, failure ≠ TimeoutError ->
     generate_motion_from_remote (WsRaised failure) = Raise connection_refused_missing) ∧
  (∀ request x_session_id env st failure,
     (admission x_session_id env st).1.1 = true ->
     env_exchange env = WsRaised failure ->
     let r := generate_motion request x_session_id env st in
     ∃ e, r.1 = Raise e ∧ no_motion_created st r.2 ∧
          (failure = TimeoutError ->
           error_envelope e
           = {| resp_status := 504; resp_success := false;
                resp_error := JStr "Request timeout - generation took too long";
                resp_code := JStr "TIMEOUT" |}) ∧
          (failure ≠ TimeoutError ->
           error_envelope e
           = {| resp_status := 500; resp_success := false;
                resp_error :=
                  JStr ("Failed to generate motion: "
                        ++ "module 'websockets.exceptions' has no attribute 'ConnectionRefused'");
                resp_code := JStr "GENERATION_FAILED" |})).
Proof.
  split; [reflexivity|].
  assert (Hmasked : ∀ failure, failure ≠ TimeoutError ->
            generate_motion_from_remote (WsRaised failure) = Raise connection_refused_missing).
  { intros failure Hne. unfold generate_motion_from_remote.
    now rewrite except_clauses_masks. }
  split; [exact Hmasked|].
  intros request x_session_id env st failure Hadm Hexchange.
  assert (failure = TimeoutError ∨ failure ≠ TimeoutError) as [->|Hne]
    by (destruct failure; (now left) || (now right)).
  - destruct (generate_motion_remote_failure request x_session_id env st 504
                (JStr "Request timeout - generation took too long") (JStr "TIMEOUT") Hadm)
      as (e & Hraise & Henvelope & _ & Hnone).
    + now rewrite Hexchange.
    + exists e. split; [exact Hraise|]. split; [exact Hnone|]. split; [done|done].
  - destruct (generate_motion_masked request x_session_id env st Hadm) as (Hraise & _ & Hnone).
    + rewrite Hexchange. now apply Hmasked.
    + eexists. split; [exact Hraise|]. split; [exact Hnone|]. split; [done|reflexivity].
Qed.

(** C10: once the rate limiter has admitted a generate request, the session
    the registry holds afterwards has the count the limiter left, one more
    than the count of the window at the check, whatever the remote exchange
    and the conversion do; when the handler raises, the registry is exactly
    the one the admission left. *)
Theorem admitted_request_keeps_count request x_session_id env st :
  let got :=
    get_or_create_session x_session_id (env_uuid4 env)
      (env_now_session env) (env_now_field env) st in
  let checked := check_rate_limit (env_now_rate env) got.1 in
  let sid := session_key x_session_id (env_uuid4 env) in
  let r := generate_motion request x_session_id env st in
  checked.1 = true ->
  (∃ session',
     sessions r.2 !! sid = Some session' ∧
     request_count session' = request_count checked.2 ∧
     request_window_start session' = request_window_start checked.2 ∧
     request_count session'
     = (if decide (window_expired (env_now_rate env) got.1)
        then 0 else request_count got.1) + 1) ∧
  (∀ e, r.1 = Raise e -> r.2 = store_session sid checked.2 got.2).
Proof.
  cbn zeta. intros Hadmitted.
  assert (Hcount :
    request_count (check_rate_limit (env_now_rate env)
      (get_or_create_session x_session_id (env_uuid4 env)
         (env_now_session env) (env_now_field env) st).1).2
    = (if decide (window_expired (env_now_rate env)
            (get_or_create_session x_session_id (env_uuid4 env)
               (env_now_session env) (env_now_field env) st).1)
       then 0
       else request_count
              (get_or_create_session x_session_id (env_uuid4 env)
                 (env_now_session env) (env_now_field env) st).1) + 1).
  { revert Hadmitted. unfold check_rate_limit, window_expired. cbn zeta.
    match goal with
    | |- context [?a >? ?b] => destruct (Z.gtb_spec a b) as [Hexp|Hwin]
    end.
    - rewrite decide_True by lia. destruct (_ >=? _); [done|reflexivity].
    - rewrite decide_False by lia. destruct (_ >=? _); [done|reflexivity]. }
  unfold generate_motion, admission.
  destruct (get_or_create_session _ _ _ _ st) as [session st0]. cbn [fst snd] in *.
  destruct (check_rate_limit _ session) as [admitted session1]. cbn [fst snd] in *.
  subst admitted. cbn [negb].
  unfold generate_attempt.
  destruct (generate_motion_from_remote _) as [npz_bytes|e]; cbn.
  2:{ split; [|now destruct e].
      exists session1. split; [|done].
      destruct e; cbn; apply lookup_insert_eq. }
  destruct (convert_npz_to_motion_data _ _ _) as [motion_data|e]; cbn.
  2:{ split; [|now destruct e].
      exists session1. split; [|done].
      destruct e; cbn; apply lookup_insert_eq. }
  unfold store_motion.
  destruct (enforce_motion_limit session1) as [session2|e] eqn:Henforce; cbn.
  2:{ split; [|now destruct e].
      exists session1. split; [|done].
      destruct e; cbn; apply lookup_insert_eq. }
  split; [|done].
  eexists. split; [apply lookup_insert_eq|]. cbn.
  assert (request_count session2 = request_count session1 ∧
          request_window_start session2 = request_window_start session1) as [-> ->].
  { revert Henforce. unfold enforce_motion_limit.
    destruct (_ >=? _); [|now intros [= ->]].
    destruct (dict_min_key _ _); cbn; [now intros [= <-]|done]. }
  done.
Qed.

(** ** Which handlers refresh last_activity *)

Lemma get_motion_touches motion_id sid now st session :
  sid ≠ String.EmptyString -> sessions st !! sid = Some session ->
  last_activity <$> sessions (get_motion motion_id (Some sid) now st).2 !! sid = Some now.
Proof.
  intros Hne Hsid. unfold get_motion.
  rewrite (known_session_known _ _ _ Hne Hsid). cbn zeta.
  destruct (dict_get motion_id _); cbn; now rewrite lookup_insert_eq.
Qed.

Lemma list_motions_touches sid now st session :
  sid ≠ String.EmptyString -> sessions st !! sid = Some session ->
  last_activity <$> sessions (list_motions (Some sid) now st).2 !! sid = Some now.
Proof.
  intros Hne Hsid. unfold list_motions.
  rewrite (known_session_known _ _ _ Hne Hsid). cbn.
  now rewrite lookup_insert_eq.
Qed.

Lemma get_or_create_session_touches supplied uuid4 now now_field st :
  let r := get_or_create_session supplied uuid4 now now_field st in
  last_activity r.1 = now ∧
  sessions r.2 !! session_key supplied uuid4 = Some r.1.
Proof.
  unfold get_or_create_session, session_key, known_session. cbn.
  destruct (truthy supplied) as [sid|]; cbn.
  - destruct (sessions st !! sid); cbn; now rewrite lookup_insert_eq.
  - now rewrite lookup_insert_eq.
Qed.

(** [delete_motion] removes the motion and leaves last_activity as it was. *)
Lemma delete_motion_last_activity motion_id sid now st session motion :
  sid ≠ String.EmptyString -> sessions st !! sid = Some session ->
  dict_get motion_id (motions session) = Some motion ->
  (delete_motion motion_id (Some sid) now st).1 = Return tt ∧
  last_activity <$> sessions (delete_motion motion_id (Some sid) now st).2 !! sid
  = Some (last_activity session).
Proof.
  intros Hne Hsid Hmotion. unfold delete_motion.
  rewrite (known_session_known _ _ _ Hne Hsid), Hmotion. cbn.
  now rewrite lookup_insert_eq.
Qed.

(** ** The expiry sweep as an operation on the registry *)

Lemma app_state_eq (a b : AppState) : sessions a = sessions b -> a = b.
Proof. destruct a, b. cbn. now intros ->. Qed.

Lemma is_expired_mono earlier later session :
  earlier <= later ->
  is_expired earlier session = true -> is_expired later session = true.
Proof. rewrite !is_expired_true. lia. Qed.

Lemma cleanup_cleanup earlier later st :
  earlier <= later ->
  cleanup_expired_sessions later (cleanup_expired_sessions earlier st)
  = cleanup_expired_sessions later st.
Proof.
  intros Hle. apply app_state_eq, map_eq. intros sid.
  rewrite !cleanup_lookup.
  destruct (sessions st !! sid) as [session|]; [|done].
  destruct (is_expired earlier session) eqn:Hearly; [|done].
  now rewrite (is_expired_mono _ _ _ Hle Hearly).
Qed.

(** X1: the sweeps of the cleanup loop add up to its last one: when no
    earlier wake-up read a later clock than the last, the registry after all
    the sweeps is the registry one sweep at the last reading leaves; in
    particular sweeping twice at one time is sweeping once. *)
Theorem periodic_cleanup_last wakeups last st :
  Forall (fun now => now <= last) wakeups ->
  periodic_cleanup (wakeups ++ [last]) st = cleanup_expired_sessions last st.
Proof.
  unfold periodic_cleanup. rewrite fold_left_app. cbn.
  revert st. induction wakeups as [|now wakeups IH]; intros st Hle; cbn; [done|].
  apply Forall_cons in Hle as [Hnow Hle].
  rewrite IH by done. now apply cleanup_cleanup.
Qed.

(** X2: a sweep only removes: every session the registry holds afterwards
    it held before, unchanged, so the number of active sessions does not
    grow; and a session that stays through a sweep keeps all its motions. *)
Theorem cleanup_only_removes now st :
  sessions (cleanup_expired_sessions now st) ⊆ sessions st ∧
  (active_sessions (cleanup_expired_sessions now st) <= active_sessions st)%nat ∧
  (∀ sid, stored_motions (cleanup_expired_sessions now st) sid = stored_motions st sid
          ∨ sessions (cleanup_expired_sessions now st) !! sid = None).
Proof.
  assert (Hsub : sessions (cleanup_expired_sessions now st) ⊆ sessions st).
  { apply map_subseteq_spec. intros sid session. rewrite cleanup_lookup.
    destruct (sessions st !! sid) as [session'|]; [|done].
    now destruct (is_expired now session'). }
  split; [exact Hsub|]. split; [now apply map_subseteq_size|].
  intros sid. unfold stored_motions. rewrite cleanup_lookup.
  destruct (sessions st !! sid) as [session|]; [|now left].
  destruct (is_expired now session); [now right|now left].
Qed.

(** ** The listing *)

Lemma insert_desc_perm x l : insert_desc x l ≡ₚ x :: l.
Proof.
  induction l as [|y l IH]; cbn; [done|].
  destruct (ms_created_at x <? ms_created_at y); [|done].
  rewrite IH. apply Permutation_swap.
Qed.

Lemma sorted_desc_perm l : sorted_desc l ≡ₚ l.
Proof.
  induction l as [|x l IH]; cbn; [done|].
  unfold sorted_desc in *. cbn. rewrite insert_desc_perm. now f_equiv.
Qed.

Lemma insert_desc_sorted x l :
  StronglySorted newer_first l -> StronglySorted newer_first (insert_desc x l).
Proof.
  induction l as [|y l IH]; cbn; intros Hsorted.
  - repeat constructor.
  - apply StronglySorted_inv in Hsorted as [Hl Hy].
    destruct (Z.ltb_spec (ms_created_at x) (ms_created_at y)) as [Hlt|Hge].
    + constructor; [auto|].
      rewrite insert_desc_perm. constructor; [unfold newer_first; lia|exact Hy].
    + constructor; [now constructor|].
      constructor; [exact Hge|].
      eapply Forall_impl; [exact Hy|]. unfold newer_first. cbn. intros z Hz. lia.
Qed.

Lemma sorted_desc_sorted l : StronglySorted newer_first (sorted_desc l).
Proof.
  induction l as [|x l IH]; cbn; [constructor|].
  now apply insert_desc_sorted.
Qed.

Lemma substring_length n s : (String.length (substring 0 n s) <= n)%nat.
Proof.
  revert s. induction n as [|n IH]; intros [|c s]; cbn; try lia.
  specialize (IH s). lia.
Qed.

Lemma substring_prefix n s : String.prefix (substring 0 n s) s = true.
Proof.
  revert s. induction n as [|n IH]; intros [|c s]; cbn; try done.
  destruct (Ascii.ascii_dec c c); [apply IH|done].
Qed.

(** X3: for a known session the listing holds one summary per stored
    motion (it is a permutation of their summaries), newest first, each
    under the id its motion is stored under, with a text_prompt that is the
    first 100 characters at most of the stored prompt. *)
Theorem list_motions_sorted sid now st session :
  sid ≠ String.EmptyString -> sessions st !! sid = Some session ->
  let listing := (list_motions (Some sid) now st).1 in
  ml_session_id listing = Some sid ∧
  ml_motions listing ≡ₚ summary <$> motions session ∧
  length (ml_motions listing) = length (motions session) ∧
  StronglySorted newer_first (ml_motions listing) ∧
  (∀ item, item ∈ ml_motions listing ->
     ∃ stored, (ms_motion_id item, stored) ∈ motions session ∧
               ms_created_at item = sm_created_at stored ∧
               (String.length (ms_text_prompt item) <= 100)%nat ∧
               String.prefix (ms_text_prompt item) (sm_text_prompt stored) = true).
Proof.
  intros Hne Hsid. unfold list_motions.
  rewrite (known_session_known _ _ _ Hne Hsid). cbn.
  split; [done|]. split; [apply sorted_desc_perm|].
  split; [now rewrite sorted_desc_perm, length_fmap|].
  split; [apply sorted_desc_sorted|].
  intros item Hitem. rewrite sorted_desc_perm in Hitem.
  apply list_elem_of_fmap in Hitem as [[k stored] [-> Hin]].
  exists stored. cbn. split; [exact Hin|]. split; [done|].
  split; [apply substring_length|apply substring_prefix].
Qed.

(** ** What one call does to the registry *)

Lemma known_session_Some x_session_id st sid session :
  known_session x_session_id st = Some (sid, session) ->
  truthy x_session_id = Some sid ∧ sessions st !! sid = Some session.
Proof.
  unfold known_session. destruct (truthy x_session_id) as [key|]; cbn; [|done].
  destruct (sessions st !! key) as [known|] eqn:Hkey; cbn; [|done].
  now intros [= <- <-].
Qed.

Lemma known_session_None x_session_id st :
  known_session x_session_id st = None ->
  ∀ sid, truthy x_session_id = Some sid -> sessions st !! sid = None.
Proof.
  unfold known_session. intros Hnone sid Hsid. rewrite Hsid in Hnone. cbn in Hnone.
  now destruct (sessions st !! sid).
Qed.

(** The session [get_or_create_session] starts from: the registered one or
    a new one. *)
Lemma get_or_create_session_origin supplied uuid4 now now_field st :
  let r := get_or_create_session supplied uuid4 now now_field st in
  let key := session_key supplied uuid4 in
  sessions r.2 = <[key := r.1]> (sessions st) ∧
  ((∃ known, sessions st !! key = Some known ∧ truthy supplied = Some key ∧
             r.1 = set_last_activity now known) ∨
   (r.1 = new_session key now now_field ∧
    (truthy supplied = Some key -> sessions st !! key = None))).
Proof.
  unfold get_or_create_session, session_key. cbn zeta.
  destruct (known_session supplied st) as [[sid known]|] eqn:Hknown.
  - apply known_session_Some in Hknown as [Hsid Hlookup]. rewrite Hsid. cbn.
    split; [done|]. left. eauto.
  - cbn. split; [done|]. right. split; [done|].
    intros Hsid. apply (known_session_None _ _ Hknown). now rewrite Hsid in *.
Qed.

Lemma admission_origin x_session_id env st :
  let key := session_key x_session_id (env_uuid4 env) in
  let got := get_or_create_session x_session_id (env_uuid4 env)
               (env_now_session env) (env_now_field env) st in
  let checked := check_rate_limit (env_now_rate env) got.1 in
  admission x_session_id env st
  = (checked.1, checked.2, {| sessions := <[key := checked.2]> (sessions st) |}).
Proof.
  cbn zeta. unfold admission.
  pose proof (get_or_create_session_origin x_session_id (env_uuid4 env)
                (env_now_session env) (env_now_field env) st) as [Hsessions _].
  destruct (get_or_create_session _ _ _ _ st) as [session st0]. cbn in *.
  destruct (check_rate_limit _ session) as [admitted session1]. cbn.
  unfold store_session. now rewrite Hsessions, insert_insert_eq.
Qed.

(** The registry after [generate_motion]: the admission's, or the
    admission's with a motion stored in the session. *)
Lemma generate_motion_outcome request x_session_id env st :
  let key := session_key x_session_id (env_uuid4 env) in
  let adm := admission x_session_id env st in
  let r := generate_motion request x_session_id env st in
  ((∃ e, r.1 = Raise e) ∧ r.2 = adm.2) ∨
  (∃ response session' npz_bytes,
     adm.1.1 = true ∧
     generate_motion_from_remote (env_exchange env) = Return npz_bytes ∧
     convert_npz_to_motion_data npz_bytes
       ("[AI] " ++ substring 0 30 (text request)) (env_now_convert env)
     = Return (gr_motion response) ∧
     store_motion (gr_motion_id response)
       {| sm_data := gr_motion response;
          sm_motion_id := gr_motion_id response;
          sm_text_prompt := text request;
          sm_parameters :=
            {| p_motion_length := motion_length request;
               p_num_inference_steps := num_inference_steps request;
               p_adaptive_smooth := adaptive_smooth request;
               p_static_start := static_start request;
               p_transition_steps := transition_steps request |} |}
       adm.1.2
     = Return session' ∧
     gr_success response = true ∧
     gr_motion_id response
     = "gen_" ++ env_stamp env ++ "_" ++ substring 0 8 (env_uuid_hex env) ∧
     r = (Return response, store_session key session' adm.2)).
Proof.
  cbn zeta. unfold generate_motion.
  destruct (admission x_session_id env st) as [[admitted session] st1]. cbn [fst snd].
  destruct admitted; cbn [negb]; [|left; eauto].
  unfold generate_attempt.
  destruct (generate_motion_from_remote _) as [npz_bytes|e]; cbn;
    [|left; destruct e; eauto].
  destruct (convert_npz_to_motion_data _ _ _) as [motion_data|e] eqn:Hconvert; cbn;
    [|left; destruct e; eauto].
  destruct (store_motion _ _ session) as [session'|e] eqn:Hstore; cbn;
    [|left; destruct e; eauto].
  right. eexists _, session', npz_bytes. cbn.
  repeat split; try reflexivity; try exact Hconvert. exact Hstore.
Qed.

Lemma generate_motion_sessions request x_session_id env st :
  ∃ session',
    sessions (generate_motion request x_session_id env st).2
    = <[session_key x_session_id (env_uuid4 env) := session']> (sessions st).
Proof.
  pose proof (generate_motion_outcome request x_session_id env st) as Hout.
  cbn zeta in Hout. rewrite admission_origin in Hout. cbn [fst snd] in Hout.
  destruct Hout as [[_ ->]|(response & session' & npz_bytes & _ & _ & _ & _ & _ & _ & ->)].
  - eexists. reflexivity.
  - exists session'. cbn. now rewrite insert_insert_eq.
Qed.

(** A handler that only looks the session up leaves the registry as it is
    or replaces the session under its key by one that differs in
    last_activity or has lost one motion. *)
Lemma lookup_call_outcome call st :
  lookup_call call = true ->
  serve call st = st ∨
  ∃ sid old new,
    call_key call = Some sid ∧ sessions st !! sid = Some old ∧
    serve call st = store_session sid new st ∧
    session_id new = session_id old ∧ created_at new = created_at old ∧
    request_count new = request_count old ∧
    request_window_start new = request_window_start old ∧
    (motions new = motions old ∨ ∃ motion_id, motions new = dict_del motion_id (motions old)).
Proof.
  destruct call as [| x now | motion_id x now | motion_id x now | |]; try done; intros _; cbn.
  - unfold list_motions.
    destruct (known_session x st) as [[sid old]|] eqn:Hknown; [|now left].
    apply known_session_Some in Hknown as [Hsid Hold]. right.
    exists sid, old, (set_last_activity now old). cbn. auto 10.
  - unfold get_motion.
    destruct (known_session x st) as [[sid old]|] eqn:Hknown; [|now left].
    apply known_session_Some in Hknown as [Hsid Hold]. right.
    exists sid, old, (set_last_activity now old).
    destruct (dict_get motion_id _); cbn; auto 10.
  - unfold delete_motion.
    destruct (known_session x st) as [[sid old]|] eqn:Hknown; [|now left].
    apply known_session_Some in Hknown as [Hsid Hold].
    destruct (dict_get motion_id (motions old)); [|now left]. right.
    exists sid, old, (set_motions (dict_del motion_id (motions old)) old). cbn.
    repeat split; eauto.
Qed.

(** X4: listing, reading and deleting never create or remove a session
    and never touch the rate limiter: the registry holds the same session
    ids afterwards, every session keeps its id, creation time, request
    count and window start, and a session other than the one named by the
    request is left exactly as it was. *)
Theorem lookup_calls_frame call st :
  lookup_call call = true ->
  dom (sessions (serve call st)) = dom (sessions st) ∧
  active_sessions (serve call st) = active_sessions st ∧
  ∀ sid new,
    sessions (serve call st) !! sid = Some new ->
    ∃ old, sessions st !! sid = Some old ∧
           session_id new = session_id old ∧ created_at new = created_at old ∧
           request_count new = request_count old ∧
           request_window_start new = request_window_start old ∧
           (call_key call ≠ Some sid -> new = old).
Proof.
  intros Hcall.
  destruct (lookup_call_outcome call st Hcall)
    as [->|(key & old & new & Hkey & Hold & -> & Hid & Hcreated & Hcount & Hstart & _)].
  - split; [done|]. split; [done|]. intros sid new Hnew. exists new. auto 10.
  - assert (Hdom : dom (sessions (store_session key new st)) = dom (sessions st)).
    { cbn. apply dom_insert_lookup_L. eauto. }
    split; [exact Hdom|]. split.
    + unfold active_sessions. now rewrite <- !size_dom, Hdom.
    + intros sid new'. cbn. destruct (decide (sid = key)) as [->|Hne].
      * rewrite lookup_insert_eq. intros [= <-]. exists old.
        rewrite Hkey. repeat split; done.
      * rewrite lookup_insert_ne by done. intros Hnew. exists new'. auto 10.
Qed.

(** X5: a request works on one session only: after any call but a sweep,
    every session stored under another id than the one the request names
    (for generate, the supplied id or else the generated uuid) is exactly
    what it was, whether the call returned or raised. *)
Theorem calls_leave_other_sessions call st sid :
  (∀ now, call ≠ CallCleanup now) ->
  call_key call ≠ Some sid ->
  sessions (serve call st) !! sid = sessions st !! sid.
Proof.
  intros Hcall Hkey.
  destruct call as [request x env| x now | motion_id x now | motion_id x now
                    | uuid4 now now_field | now].
  - destruct (generate_motion_sessions request x env st) as [session' Hsessions].
    cbn in *. rewrite Hsessions. apply lookup_insert_ne. congruence.
  - destruct (lookup_call_outcome (CallListMotions x now) st eq_refl)
      as [->|(key & old & new & Hk & _ & -> & _)]; [done|].
    cbn. apply lookup_insert_ne. congruence.
  - destruct (lookup_call_outcome (CallGetMotion motion_id x now) st eq_refl)
      as [->|(key & old & new & Hk & _ & -> & _)]; [done|].
    cbn. apply lookup_insert_ne. congruence.
  - destruct (lookup_call_outcome (CallDeleteMotion motion_id x now) st eq_refl)
      as [->|(key & old & new & Hk & _ & -> & _)]; [done|].
    cbn. apply lookup_insert_ne. congruence.
  - unfold serve, create_session. cbn in Hkey.
    destruct (get_or_create_session_origin None uuid4 now now_field st) as [-> _].
    apply lookup_insert_ne. cbn. congruence.
  - now destruct (Hcall now).
Qed.

(** ** Invariants of the registry *)

Lemma convert_record_consistent npz_bytes motion_name now md :
  convert_npz_to_motion_data npz_bytes motion_name now = Return md ->
  record_consistent md.
Proof.
  unfold convert_npz_to_motion_data.
  destruct (np_load npz_bytes) as [[[[|fps rest]|] [jp|] [rp|] [rr|]]|e]; cbn;
    try discriminate.
  unfold true_div. destruct (decide (fps = 0)) as [|Hfps]; cbn; [discriminate|].
  intros [= <-]. split; [done|]. exists fps. cbn. auto.
Qed.

Lemma new_session_consistent sid now now_field :
  session_consistent sid (new_session sid now now_field).
Proof.
  unfold session_consistent. cbn. split; [done|]. split; [constructor|].
  split; [intros k m Hin; now apply elem_of_nil in Hin|]. lia.
Qed.

Lemma set_last_activity_consistent sid now session :
  session_consistent sid session -> session_consistent sid (set_last_activity now session).
Proof. unfold session_consistent. now cbn. Qed.

Lemma check_rate_limit_consistent sid now session :
  session_consistent sid session ->
  session_consistent sid (check_rate_limit now session).2.
Proof.
  unfold session_consistent. intros (Hid & Hnodup & Hmotions & Hlen & Hcount).
  unfold check_rate_limit.
  destruct (_ >? _);
    match goal with
    | |- context [?a >=? ?b] => destruct (Z.geb_spec a b)
    end;
    cbn [fst snd request_count motions session_id set_request_count
         set_request_window_start] in *;
    (split; [done|]); (split; [done|]); (split; [done|]); (split; [done|]); lia.
Qed.

Lemma dict_del_elem_of {V} k (d : dict V) kv : kv ∈ dict_del k d -> kv ∈ d.
Proof.
  induction d as [|[k0 v0] d IH]; cbn; [done|].
  destruct (decide (k = k0)); [now right|].
  intros [->|Hin]%elem_of_cons; [now left|right; auto].
Qed.

Lemma dict_set_elem_of {V} k v (d : dict V) kv :
  kv ∈ dict_set k v d -> kv = (k, v) ∨ kv ∈ d.
Proof.
  induction d as [|[k0 v0] d IH]; cbn.
  - intros [->|Hin]%elem_of_cons; [now left|now right].
  - destruct (decide (k = k0)).
    + intros [->|Hin]%elem_of_cons; [now left|right; now right].
    + intros [->|Hin]%elem_of_cons; [right; now left|].
      destruct (IH Hin); [now left|right; now right].
Qed.

Lemma dict_del_length_le {V} k (d : dict V) : (length (dict_del k d) <= length d)%nat.
Proof.
  induction d as [|[k0 v0] d IH]; cbn; [lia|].
  destruct (decide (k = k0)); cbn; lia.
Qed.

Lemma dict_get_set_eq {V} k v (d : dict V) : dict_get k (dict_set k v d) = Some v.
Proof.
  induction d as [|[k0 v0] d IH]; cbn.
  - now rewrite decide_True.
  - destruct (decide (k = k0)) as [->|Hne]; cbn.
    + now rewrite decide_True.
    + now rewrite decide_False.
Qed.

Lemma dict_get_set_ne {V} k k' v (d : dict V) :
  k' ≠ k -> dict_get k' (dict_set k v d) = dict_get k' d.
Proof.
  intros Hne. induction d as [|[k0 v0] d IH]; cbn.
  - now rewrite decide_False.
  - destruct (decide (k = k0)) as [->|Hne0]; cbn.
    + now rewrite !decide_False.
    + now rewrite IH.
Qed.

Lemma delete_consistent sid motion_id session :
  session_consistent sid session ->
  session_consistent sid (set_motions (dict_del motion_id (motions session)) session).
Proof.
  unfold session_consistent. intros (Hid & Hnodup & Hmotions & Hlen & Hcount). cbn.
  split; [done|]. split; [now apply dict_del_NoDup|].
  split; [intros k m Hin%dict_del_elem_of; auto|].
  split; [|done].
  pose proof (dict_del_length_le motion_id (motions session)). lia.
Qed.

Lemma store_motion_consistent sid motion_id stored session session' :
  sm_motion_id stored = motion_id -> record_consistent (sm_data stored) ->
  session_consistent sid session ->
  store_motion motion_id stored session = Return session' ->
  session_consistent sid session'.
Proof.
  unfold session_consistent.
  intros Hstored Hrecord (Hid & Hnodup & Hmotions & Hlen & Hcount) Hstore.
  pose proof (store_motion_NoDup motion_id stored session Hnodup) as Hnodup'.
  rewrite Hstore in Hnodup'.
  revert Hstore. unfold store_motion, enforce_motion_limit.
  destruct (Z.geb_spec (Z.of_nat (length (motions session)))
              (MAX_STORED_MOTIONS_PER_USER config)) as [Hfull|Hroom].
  - destruct (dict_min_key sm_created_at (motions session)) as [oldest_id|e] eqn:Hmin;
      [|done].
    assert (Hne : motions session ≠ []).
    { intros Hnil. rewrite Hnil in Hmin. discriminate Hmin. }
    destruct (dict_min_key_spec sm_created_at (motions session) Hne)
      as (k & v & Hk & Hin & _).
    rewrite Hmin in Hk. injection Hk as ->.
    pose proof (dict_del_length k (motions session) (list_elem_of_fmap_2 fst _ _ Hin)) as Hdel.
    pose proof (dict_set_length motion_id stored (dict_del k (motions session))) as Hset.
    cbn. intros [= <-]. cbn in *.
    split; [done|]. split; [exact Hnodup'|]. split; [|split; [lia|done]].
    intros k' stored' [[= -> ->]|Hin']%dict_set_elem_of; [done|].
    apply dict_del_elem_of in Hin'. now apply Hmotions.
  - pose proof (dict_set_length motion_id stored (motions session)) as Hset.
    cbn. intros [= <-]. cbn in *.
    split; [done|]. split; [exact Hnodup'|]. split; [|split; [lia|done]].
    intros k' stored' [[= -> ->]|Hin']%dict_set_elem_of; [done|]. now apply Hmotions.
Qed.

Lemma store_session_consistent sid session st :
  session_consistent sid session -> registry_consistent st ->
  registry_consistent (store_session sid session st).
Proof.
  intros Hsession Hst key session'. cbn.
  destruct (decide (key = sid)) as [->|Hne].
  - rewrite lookup_insert_eq. now intros [= <-].
  - rewrite lookup_insert_ne by done. apply Hst.
Qed.

Lemma serve_consistent call st :
  registry_consistent st -> registry_consistent (serve call st).
Proof.
  intros Hst.
  destruct (lookup_call call) eqn:Hlookup.
  { destruct (lookup_call_outcome call st Hlookup)
      as [->|(key & old & new & _ & Hold & -> & Hid & _ & Hcount & _ & Hmotions)]; [done|].
    apply store_session_consistent; [|done].
    specialize (Hst key old Hold).
    destruct Hmotions as [Hsame|[motion_id Hdel]].
    - destruct Hst as (Hid' & Hnodup & Hm & Hlen & Hc). unfold session_consistent.
      rewrite Hid, Hsame, Hcount. auto.
    - pose proof (delete_consistent key motion_id old Hst) as (Hid' & Hnodup & Hm & Hlen & Hc).
      cbn in *. unfold session_consistent. rewrite Hid, Hdel, Hcount. auto. }
  assert (Hgot : ∀ supplied uuid4 now now_field,
            session_consistent (session_key supplied uuid4)
              (get_or_create_session supplied uuid4 now now_field st).1).
  { intros supplied uuid4 now now_field.
    destruct (get_or_create_session_origin supplied uuid4 now now_field st)
      as [_ [(known & Hknown & _ & ->)|[-> _]]].
    - apply set_last_activity_consistent. now apply Hst.
    - apply new_session_consistent. }
  destruct call as [request x env| | | | uuid4 now now_field | now]; try done;
    unfold serve.
  - pose proof (generate_motion_outcome request x env st) as Hout.
    cbn zeta in Hout. rewrite admission_origin in Hout. cbn [fst snd] in Hout.
    assert (Hchecked : session_consistent (session_key x (env_uuid4 env))
              (check_rate_limit (env_now_rate env)
                 (get_or_create_session x (env_uuid4 env) (env_now_session env)
                    (env_now_field env) st).1).2)
      by (apply check_rate_limit_consistent, Hgot).
    destruct Hout as [[_ ->]|(response & session' & npz_bytes & _ & _ & Hconvert
                               & Hstore & _ & _ & ->)]; cbn [snd].
    + now apply (store_session_consistent _ _ st).
    + apply store_session_consistent; [|now apply (store_session_consistent _ _ st)].
      eapply store_motion_consistent; [| |exact Hchecked|exact Hstore]; [done|].
      cbn. eapply convert_record_consistent, Hconvert.
  - unfold create_session.
    destruct (get_or_create_session_origin None uuid4 now now_field st) as [Hsessions _].
    intros sid session. rewrite Hsessions.
    destruct (decide (sid = uuid4)) as [->|Hne].
    + rewrite lookup_insert_eq. intros [= <-]. apply (Hgot None).
    + cbn. rewrite lookup_insert_ne by done. apply Hst.
  - intros sid session. rewrite cleanup_lookup.
    destruct (sessions st !! sid) as [old|] eqn:Hold; [|done].
    destruct (is_expired now old); [done|]. intros [= <-]. now apply Hst.
Qed.

Lemma serve_all_consistent calls :
  ∀ st, registry_consistent st -> registry_consistent (serve_all calls st).
Proof.
  induction calls as [|call calls IH]; intros st Hst; cbn; [done|].
  apply IH. now apply serve_consistent.
Qed.

Lemma initial_state_consistent : registry_consistent initial_state.
Proof. intros sid session. cbn. now rewrite lookup_empty. Qed.

Lemma reachable_consistent calls : registry_consistent (serve_all calls initial_state).
Proof. apply serve_all_consistent, initial_state_consistent. Qed.

(** X6: in every registry the application can reach from its start, by
    any sequence of requests and sweeps, a session is stored under its own
    session_id, the motions of a session have distinct ids, and each motion
    is stored under the motion_id it carries, so that looking an id up
    gives the record with that id. *)
Theorem reachable_ids_agree calls sid session :
  sessions (serve_all calls initial_state) !! sid = Some session ->
  session_id session = sid ∧
  NoDup (motions session).*1 ∧
  ∀ motion_id stored,
    (motion_id, stored) ∈ motions session ->
    sm_motion_id stored = motion_id ∧
    dict_get motion_id (motions session) = Some stored.
Proof.
  intros Hsession.
  destruct (reachable_consistent calls sid session Hsession)
    as (Hid & Hnodup & Hmotions & _).
  split; [done|]. split; [done|]. intros motion_id stored Hin.
  split; [now apply Hmotions|now apply elem_of_dict_get].
Qed.

(** X7: in every reachable registry a session holds no more motions than
    the configured maximum (none at all when the maximum is not positive),
    and its request count lies between 0 and the configured ceiling. *)
Theorem reachable_within_limits calls sid session :
  sessions (serve_all calls initial_state) !! sid = Some session ->
  Z.of_nat (length (motions session))
    <= Z.max 0 (MAX_STORED_MOTIONS_PER_USER config) ∧
  0 <= request_count session <= Z.max 0 (MAX_REQUESTS_PER_MINUTE config).
Proof.
  intros Hsession.
  now destruct (reachable_consistent calls sid session Hsession) as (_ & _ & _ & Hlen & Hcount).
Qed.


(** ** The generate handler from request to stored motion *)

Lemma convert_returns npz_bytes data motion_name now :
  np_load npz_bytes = Return data ->
  ¬ (missing_array data ∨ fps_unusable data) ->
  ∃ md, convert_npz_to_motion_data npz_bytes motion_name now = Return md.
Proof.
  intros Hload Hok. rewrite (convert_unfold _ _ _ _ Hload).
  unfold missing_array, fps_unusable in Hok.
  destruct data as [[[|fps rest]|] [jp|] [rp|] [rr|]]; cbn in *;
    try (exfalso; apply Hok; eauto 10; fail).
  unfold true_div. destruct (decide (fps = 0)) as [->|Hfps]; cbn; [|eauto].
  exfalso. apply Hok. eauto 10.
Qed.

Lemma convert_rejects npz_bytes data motion_name now :
  np_load npz_bytes = Return data ->
  missing_array data ∨ fps_unusable data ->
  ∃ e, convert_npz_to_motion_data npz_bytes motion_name now = Raise e ∧
       ∀ status detail, e ≠ HTTPException status detail.
Proof.
  intros Hload Hbad. rewrite (convert_unfold _ _ _ _ Hload).
  unfold missing_array, fps_unusable in Hbad.
  destruct data as [[[|fps rest]|] [jp|] [rp|] [rr|]]; cbn in *;
    try (eexists; split; [reflexivity|done]).
  unfold true_div. destruct (decide (fps = 0)) as [->|Hfps]; cbn;
    [eexists; split; [reflexivity|done]|].
  exfalso. by_cases.
Qed.

Lemma store_motion_returns motion_id stored session :
  0 < MAX_STORED_MOTIONS_PER_USER config ->
  ∃ session', store_motion motion_id stored session = Return session' ∧
              dict_get motion_id (motions session') = Some stored.
Proof.
  intros Hpos. unfold store_motion.
  destruct (decide (Z.of_nat (length (motions session))
                    < MAX_STORED_MOTIONS_PER_USER config)) as [Hlt|Hge].
  - rewrite enforce_motion_limit_below by done. cbn.
    eexists. split; [reflexivity|]. cbn. apply dict_get_set_eq.
  - destruct (enforce_motion_limit_full session) as (k & v & _ & _ & ->).
    + lia.
    + intros Hnil. rewrite Hnil in Hge. cbn in Hge. lia.
    + cbn. eexists. split; [reflexivity|]. cbn. apply dict_get_set_eq.
Qed.


(** X10: a generate request of a known session that has used up its
    window (the window is not over and the count has reached the ceiling)
    raises the 429 error with code RATE_LIMIT whatever the request and the
    exchange are; the session's last_activity is refreshed all the same,
    while its count, window and motions stay as they were.  The message
    names 10 requests per minute whatever the configured ceiling is. *)
Theorem generate_rate_limited request sid env st session :
  sid ≠ String.EmptyString -> sessions st !! sid = Some session ->
  within_window session (env_now_rate env) ->
  MAX_REQUESTS_PER_MINUTE config <= request_count session ->
  generate_motion request (Some sid) env st
  = (Raise rate_limit_error,
     store_session sid (set_last_activity (env_now_session env) session) st) ∧
  error_envelope rate_limit_error
  = {| resp_status := 429; resp_success := false;
       resp_error := JStr "Rate limit exceeded - max 10 requests per minute";
       resp_code := JStr "RATE_LIMIT" |}.
Proof.
  intros Hne Hsid Hwin Hfull. split; [|reflexivity].
  unfold generate_motion. rewrite admission_origin.
  unfold get_or_create_session, session_key.
  rewrite (known_session_known _ _ _ Hne Hsid). cbn [fst snd].
  rewrite check_rate_limit_reject by done. cbn [fst snd negb].
  unfold truthy. rewrite decide_False by done. reflexivity.
Qed.

Lemma remote_raises_http exchange status detail :
  generate_motion_from_remote exchange = Raise (HTTPException status detail) ->
  (∀ status' detail', exchange ≠ WsRaised (HTTPException status' detail')) ->
  ∃ error code, detail = DetailDict error code ∧ status ∈ [500; 502; 503; 504].
Proof.
  intros Hraise Hws.
  destruct exchange as [failure|response|payload]; [| |done].
  - unfold generate_motion_from_remote in Hraise.
    destruct failure; try discriminate.
    injection Hraise as <- <-. eexists _, _. split; [reflexivity|repeat constructor].
  - rewrite remote_text_masked in Hraise. discriminate.
Qed.

Lemma convert_raises_not_http npz_bytes motion_name now status detail :
  (∀ status' detail', np_load npz_bytes ≠ Raise (HTTPException status' detail')) ->
  convert_npz_to_motion_data npz_bytes motion_name now ≠ Raise (HTTPException status detail).
Proof.
  intros Hload. unfold convert_npz_to_motion_data.
  destruct (np_load npz_bytes) as [[[[|fps rest]|] [jp|] [rp|] [rr|]]|failure] eqn:Hnp;
    cbn; try discriminate.
  - unfold true_div. destruct (decide (fps = 0)); cbn; discriminate.
  - intros [= ->]. now destruct (Hload status detail).
Qed.

Lemma store_motion_raises motion_id stored session e :
  store_motion motion_id stored session = Raise e ->
  e = ValueError ∧ motions session = [] ∧ MAX_STORED_MOTIONS_PER_USER config <= 0.
Proof.
  unfold store_motion, enforce_motion_limit.
  destruct (Z.geb_spec (Z.of_nat (length (motions session)))
              (MAX_STORED_MOTIONS_PER_USER config)) as [Hfull|]; cbn; [|done].
  destruct (motions session) as [|kv d]; cbn in *; [|done].
  intros [= <-]. repeat split. lia.
Qed.

(** X11: whatever generate_motion raises is an HTTPException, so the
    client always receives the envelope of http_exception_handler with
    success false; and unless a library itself raises an HTTPException, the
    detail is a dict with error and code and the status is one of 429, 500,
    502, 503 and 504. *)
Theorem generate_motion_raises_http request x_session_id env st e :
  (generate_motion request x_session_id env st).1 = Raise e ->
  (∃ status detail,
     e = HTTPException status detail ∧
     error_envelope e = http_exception_handler status detail ∧
     resp_success (error_envelope e) = false ∧
     resp_status (error_envelope e) = status) ∧
  ((∀ status detail, env_exchange env ≠ WsRaised (HTTPException status detail)) ->
   (∀ npz_bytes status detail, np_load npz_bytes ≠ Raise (HTTPException status detail)) ->
   ∃ status error code,
     e = HTTPException status (DetailDict error code) ∧
     status ∈ [429; 500; 502; 503; 504]).
Proof.
  assert (Henvelope : ∀ status detail,
            error_envelope (HTTPException status detail) = http_exception_handler status detail ∧
            resp_success (error_envelope (HTTPException status detail)) = false ∧
            resp_status (error_envelope (HTTPException status detail)) = status)
    by (intros status []; repeat split).
  unfold generate_motion.
  destruct (admission x_session_id env st) as [[admitted session] st1].
  destruct admitted; cbn [negb].
  2:{ cbn. intros [= <-]. split; [eexists _, _; split; [reflexivity|apply Henvelope]|].
      intros _ _. eexists _, _, _. split; [reflexivity|repeat constructor]. }
  destruct (generate_attempt request env session) as [[response session']|failure] eqn:Hattempt;
    [done|].
  assert (Hwrapped : ∀ text code,
            (∃ status detail,
               http_error 500 text code = HTTPException status detail ∧
               error_envelope (http_error 500 text code) = http_exception_handler status detail ∧
               resp_success (error_envelope (http_error 500 text code)) = false ∧
               resp_status (error_envelope (http_error 500 text code)) = status) ∧
            ∃ status error code',
              http_error 500 text code = HTTPException status (DetailDict error code') ∧
              status ∈ [429; 500; 502; 503; 504]).
  { intros text code. split; [eexists _, _; repeat split|].
    eexists _, _, _. split; [reflexivity|repeat constructor]. }
  destruct failure; cbn; intros [= <-];
    try (split; [apply Hwrapped|intros _ _; apply Hwrapped]).
  split; [eexists _, _; split; [reflexivity|apply Henvelope]|].
  intros Hws Hload. revert Hattempt. unfold generate_attempt.
  destruct (generate_motion_from_remote (env_exchange env)) as [npz_bytes|failure] eqn:Hremote;
    cbn [mbind result_bind].
  - destruct (convert_npz_to_motion_data _ _ _) as [md|failure] eqn:Hconvert;
      cbn [mbind result_bind].
    + destruct (store_motion _ _ session) as [session'|failure] eqn:Hstore; cbn; [done|].
      apply store_motion_raises in Hstore as [-> _]. discriminate.
    + intros [= ->]. now apply convert_raises_not_http in Hconvert.
  - intros [= ->].
    destruct (remote_raises_http _ _ _ Hremote Hws) as (error & code & -> & Hstatus).
    eexists _, _, _. split; [reflexivity|]. now right.
Qed.

(** X12: when the payload of an admitted generate request cannot be
    converted (an array is missing, or the frame rate is absent or zero),
    the handler raises the 500 error with code GENERATION_FAILED, whose
    message is "Failed to generate motion: " followed by the text of the
    exception, and the registry is the one the admission left: no motion is
    stored. *)
Theorem generate_conversion_failure request x_session_id env st npz_bytes data :
  (admission x_session_id env st).1.1 = true ->
  env_exchange env = WsBinary npz_bytes ->
  np_load npz_bytes = Return data ->
  missing_array data ∨ fps_unusable data ->
  ∃ e,
    convert_npz_to_motion_data npz_bytes
      ("[AI] " ++ substring 0 30 (text request)) (env_now_convert env) = Raise e ∧
    generate_motion request x_session_id env st
    = (Raise (http_error 500 ("Failed to generate motion: " ++ exn_str e)
                "GENERATION_FAILED"),
       (admission x_session_id env st).2) ∧
    no_motion_created st (generate_motion request x_session_id env st).2.
Proof.
  intros Hadm Hexchange Hload Hbad.
  destruct (convert_rejects npz_bytes data ("[AI] " ++ substring 0 30 (text request))
              (env_now_convert env) Hload Hbad) as (e & Hconvert & Hkind).
  exists e. split; [exact Hconvert|].
  pose proof (admission_no_motion_created x_session_id env st) as Hnone.
  destruct (admission x_session_id env st) as [[admitted session] st1] eqn:Hadmission.
  cbn in Hadm. subst admitted.
  assert (Hattempt : generate_attempt request env session = Raise e).
  { unfold generate_attempt. rewrite Hexchange. cbn [generate_motion_from_remote mbind result_bind].
    now rewrite Hconvert. }
  rewrite (generate_motion_raise _ _ _ _ _ _ _ Hadmission Hattempt).
  destruct e; try (split; [reflexivity|exact Hnone]).
  now destruct (Hkind status_code detail).
Qed.

Lemma admission_session_consistent x_session_id env st :
  registry_consistent st ->
  session_consistent (session_key x_session_id (env_uuid4 env))
    (admission x_session_id env st).1.2.
Proof.
  intros Hst. rewrite admission_origin. cbn [fst snd].
  apply check_rate_limit_consistent.
  destruct (get_or_create_session_origin x_session_id (env_uuid4 env)
              (env_now_session env) (env_now_field env) st)
    as [_ [(known & Hknown & _ & ->)|[-> _]]].
  - apply set_last_activity_consistent. now apply Hst.
  - apply new_session_consistent.
Qed.

(** X16: with the store limit configured as zero (or below), no motion is
    ever stored: in every reachable registry an admitted generate request
    whose payload converts well still raises the 500 error
    GENERATION_FAILED, because the oldest motion is sought in an empty
    store ("min() arg is an empty sequence"). *)
Theorem zero_limit_stores_nothing calls request x_session_id env npz_bytes data :
  MAX_STORED_MOTIONS_PER_USER config <= 0 ->
  let st := serve_all calls initial_state in
  (admission x_session_id env st).1.1 = true ->
  env_exchange env = WsBinary npz_bytes ->
  np_load npz_bytes = Return data ->
  ¬ (missing_array data ∨ fps_unusable data) ->
  generate_motion request x_session_id env st
  = (Raise (http_error 500 "Failed to generate motion: min() arg is an empty sequence"
              "GENERATION_FAILED"),
     (admission x_session_id env st).2).
Proof.
  intros Hzero st Hadm Hexchange Hload Hok.
  pose proof (admission_session_consistent x_session_id env st (reachable_consistent calls))
    as (_ & _ & _ & Hlen & _).
  destruct (convert_returns npz_bytes data ("[AI] " ++ substring 0 30 (text request))
              (env_now_convert env) Hload Hok) as [md Hconvert].
  destruct (admission x_session_id env st) as [[admitted session] st1] eqn:Hadmission.
  cbn [fst snd] in *. subst admitted.
  assert (Hempty : motions session = []).
  { destruct (motions session); [done|]. cbn in Hlen. lia. }
  assert (Hattempt : generate_attempt request env session = Raise ValueError).
  { unfold generate_attempt. rewrite Hexchange.
    cbn [generate_motion_from_remote mbind result_bind]. rewrite Hconvert.
    cbn [mbind result_bind]. unfold store_motion, enforce_motion_limit.
    rewrite Hempty. cbn [length].
    destruct (Z.geb_spec (Z.of_nat 0) (MAX_STORED_MOTIONS_PER_USER config)); [done|lia]. }
  now rewrite (generate_motion_raise _ _ _ _ _ _ _ Hadmission Hattempt).
Qed.

(** ** Reading and deleting motions *)

(** X13: deleting a stored motion returns success and removes exactly that
    motion: reading or deleting it again under the same session raises 404
    "Motion not found", every other motion id reads as before, and the
    session holds one motion fewer. *)
Theorem delete_then_get motion_id sid now later st session motion :
  sid ≠ String.EmptyString -> sessions st !! sid = Some session ->
  NoDup (motions session).*1 ->
  dict_get motion_id (motions session) = Some motion ->
  let st' := (delete_motion motion_id (Some sid) now st).2 in
  (delete_motion motion_id (Some sid) now st).1 = Return tt ∧
  (get_motion motion_id (Some sid) later st').1
    = Raise (HTTPException 404 (DetailStr "Motion not found")) ∧
  (delete_motion motion_id (Some sid) later st').1
    = Raise (HTTPException 404 (DetailStr "Motion not found")) ∧
  (∀ other, other ≠ motion_id ->
     (get_motion other (Some sid) later st').1 = (get_motion other (Some sid) later st).1) ∧
  S (length (stored_motions st' sid)) = length (stored_motions st sid).
Proof.
  intros Hne Hsid Hnodup Hmotion. cbn zeta.
  set (session' := set_motions (dict_del motion_id (motions session)) session).
  assert (Hdelete : delete_motion motion_id (Some sid) now st
                    = (Return tt, store_session sid session' st)).
  { unfold delete_motion. now rewrite (known_session_known _ _ _ Hne Hsid), Hmotion. }
  rewrite Hdelete. cbn [fst snd].
  assert (Hsid' : sessions (store_session sid session' st) !! sid = Some session')
    by apply lookup_insert_eq.
  split; [done|]. split; [|split; [|split]].
  - unfold get_motion. rewrite (known_session_known _ _ _ Hne Hsid'). cbn.
    now rewrite dict_get_del_eq.
  - unfold delete_motion. rewrite (known_session_known _ _ _ Hne Hsid'). cbn.
    now rewrite dict_get_del_eq.
  - intros other Hother. unfold get_motion.
    rewrite (known_session_known _ _ _ Hne Hsid'), (known_session_known _ _ _ Hne Hsid).
    cbn. rewrite dict_get_del_ne by done. now destruct (dict_get other (motions session)).
  - unfold stored_motions. rewrite Hsid', Hsid. cbn.
    apply dict_del_length. apply dict_get_elem_of in Hmotion.
    now apply (list_elem_of_fmap_2 fst) in Hmotion.
Qed.

(** X14: get_motion and delete_motion raise nothing but a 404, for an
    unknown session or an unknown motion, and the client receives it with
    the code UNKNOWN; a delete that raises leaves the registry exactly as
    it was, and so does a read under an absent or unknown session id. *)
Theorem not_found_answers motion_id x_session_id now st e :
  ((get_motion motion_id x_session_id now st).1 = Raise e ->
   (e = HTTPException 404 (DetailStr "Session not found") ∧
    (get_motion motion_id x_session_id now st).2 = st ∨
    e = HTTPException 404 (DetailStr "Motion not found")) ∧
   resp_status (error_envelope e) = 404 ∧
   resp_code (error_envelope e) = JStr "UNKNOWN") ∧
  ((delete_motion motion_id x_session_id now st).1 = Raise e ->
   (e = HTTPException 404 (DetailStr "Session not found") ∨
    e = HTTPException 404 (DetailStr "Motion not found")) ∧
   (delete_motion motion_id x_session_id now st).2 = st ∧
   resp_status (error_envelope e) = 404 ∧
   resp_code (error_envelope e) = JStr "UNKNOWN").
Proof.
  split.
  - unfold get_motion.
    destruct (known_session x_session_id st) as [[sid session]|]; cbn.
    + destruct (dict_get motion_id (motions session)); cbn; [done|].
      intros [= <-]. auto.
    + intros [= <-]. auto.
  - unfold delete_motion.
    destruct (known_session x_session_id st) as [[sid session]|]; cbn.
    + destruct (dict_get motion_id (motions session)); cbn; [done|].
      intros [= <-]. auto.
    + intros [= <-]. auto.
Qed.


End Gateway.

(** * Worked examples *)

(** ** The codec on the sample containers *)

(** A container whose leading dimensions disagree, and one whose frame rate
    is negative, are both converted: the specification's list of failing
    payloads is not the code's. *)
Lemma convert_accepts_malformed :
  spec_malformed npz_uneven ∧
  returns (convert_npz_to_motion_data (load_as npz_uneven) [] "clip" 7) ∧
  spec_malformed npz_negative_fps ∧
  returns (convert_npz_to_motion_data (load_as npz_negative_fps) [] "clip" 7).
Proof.
  split; [|split; [exact I|split; [|exact I]]].
  - right. left. eexists _, _, _. repeat split; try reflexivity.
    cbn. intros [Hlen _]. discriminate Hlen.
  - right. right. exists (-30), []. split; [reflexivity|lia].
Qed.

Lemma convert_raises_iff_witness :
  raises (convert_npz_to_motion_data (load_as npz_zero_fps) [] "clip" 7) ∧
  (∀ e, convert_npz_to_motion_data (load_as npz_zero_fps) [] "clip" 7 = Raise e ->
        e = ZeroDivisionError).
Proof.
  destruct (convert_raises_iff (load_as npz_zero_fps) [] npz_zero_fps "clip" 7 eq_refl)
    as [Hiff Hkind].
  split.
  - apply Hiff. right. right. exists []. reflexivity.
  - intros e He. vm_compute in He. congruence.
Defined.

(** One frame at 49 fps: the duration is the double nearest 1/49, and
    49 times it is not 1. *)
Example duration_is_rounded :
  float_quotient 1 49 = Qmake 5882252574524729 (2 ^ 58) ∧
  ¬ Qeq (Qmult (float_quotient 1 49) (inject_Z 49)) (inject_Z 1).
Proof. split; [reflexivity|]. vm_compute. discriminate. Qed.

(** The uneven container decodes to a record whose root positions are
    fewer than its frame count. *)
Lemma converted_record_uneven :
  ∃ md, convert_npz_to_motion_data (load_as npz_uneven) [] "clip" 7 = Return md ∧
        md_frame_count md = 2%nat ∧ length (md_root_pos md) = 1%nat.
Proof. eexists. repeat split. Qed.

Lemma converted_record_shape_witness :
  md_frame_count walk_record = 2%nat ∧
  Qle (Qabs (Qminus (md_duration walk_record) (Qdiv (inject_Z 2) (inject_Z 30))))
      (Qmult (Qmake 1 (2 ^ 53)) (Qabs (Qdiv (inject_Z 2) (inject_Z 30)))) ∧
  length (md_joint_pos walk_record) = 2%nat ∧
  length (md_root_pos walk_record) = 2%nat ∧
  length (md_root_quat walk_record) = 2%nat.
Proof.
  destruct (converted_record_shape (load_as npz_walk) [] npz_walk "clip" 7 walk_record
              eq_refl eq_refl)
    as (fps & rest & jp & rp & rr & Hfps & Hnz & Hjp & Hrp & Hrr
        & Hcount & Hdur & Hclose & Hlen & _ & _ & Hagree).
  injection Hfps as <- <-. injection Hjp as <-. injection Hrp as <-. injection Hrr as <-.
  destruct (Hagree eq_refl eq_refl) as [Hpos Hquat].
  rewrite Hpos, Hquat, Hlen.
  split; [exact Hcount|]. split; [|repeat split; exact Hcount].
  apply Hclose. now vm_compute.
Defined.

(** ** The registry on the sample states *)

(** An id the registry does not know is not replaced by a generated one:
    the new session is registered under the id the client sent. *)
Lemma unknown_id_is_adopted :
  sessions empty_state !! "abc" = None ∧
  session_id (get_or_create_session (Some "abc") "0b5f8a3e" 10 11 empty_state).1 = "abc" ∧
  session_id (get_or_create_session (Some "abc") "0b5f8a3e" 10 11 empty_state).1
    ≠ "0b5f8a3e" ∧
  sessions (get_or_create_session (Some "abc") "0b5f8a3e" 10 11 empty_state).2
    !! "0b5f8a3e" = None.
Proof. repeat split. intros [=]. Qed.

Lemma get_or_create_session_cases_witness :
  let r := get_or_create_session None "0b5f8a3e" 200 201 alice_state in
  session_id r.1 = "0b5f8a3e" ∧
  sessions alice_state ⊆ sessions r.2 ∧
  size (sessions r.2) = 2%nat.
Proof.
  pose proof (get_or_create_session_cases None "0b5f8a3e" 200 201 alice_state)
    as (_ & Hid & _ & Hfresh).
  destruct (Hfresh eq_refl) as [Hsub Hsize].
  split; [exact Hid|split; [exact Hsub|exact Hsize]].
Defined.

Lemma rate_limit_window_witness :
  let after := (check_rate_limits default_config (replicate 10 130) (session_of "alice" [])).2 in
  request_count after = 10 ∧
  check_rate_limit default_config 150 after = (false, after).
Proof.
  pose proof (rate_limit_window default_config 120 (session_of "alice" []))
    as (_ & _ & Hrun & _).
  change (if decide (window_expired 120 (session_of "alice" [])) then _ else _)
    with (session_of "alice" []) in Hrun.
  destruct (Hrun (replicate 10 130)) as (_ & Hcount & _ & Hnext).
  - apply Forall_replicate. unfold within_window, timedelta_minutes. cbn. lia.
  - reflexivity.
  - cbn. lia.
  - split; [exact Hcount|].
    apply Hnext; [reflexivity|]. unfold within_window, timedelta_minutes. cbn. lia.
Defined.

Lemma cleanup_removes_exactly_expired_witness :
  sessions (cleanup_expired_sessions default_config 1860000100 alice_state) !! "alice" = None ∧
  get_motion "m1" (Some "alice") 1860000200
    (cleanup_expired_sessions default_config 1860000100 alice_state)
  = (Raise (HTTPException 404 (DetailStr "Session not found")),
     cleanup_expired_sessions default_config 1860000100 alice_state).
Proof.
  pose proof (cleanup_removes_exactly_expired default_config 1860000100 alice_state "alice")
    as (_ & Hidle & Hget).
  assert (Hgone : sessions (cleanup_expired_sessions default_config 1860000100 alice_state)
                    !! "alice" = None).
  { apply (Hidle (session_of "alice" [("m1", clip 50)])); [reflexivity|cbn; lia|reflexivity|reflexivity]. }
  split; [exact Hgone|]. now apply Hget.
Defined.

(** ** The motion store on a sample session *)

Example store_motion_evicts_oldest :
  store_motion two_motions "m3" (clip 90) alice_full
  = Return (session_of "alice" [("m1", clip 70); ("m3", clip 90)]).
Proof. reflexivity. Qed.

Lemma motion_store_bounded_witness :
  (∃ oldest_id oldest,
     dict_get oldest_id (motions alice_full) = Some oldest ∧
     (∀ k m, (k, m) ∈ motions alice_full -> sm_created_at oldest <= sm_created_at m) ∧
     store_motion two_motions "m3" (clip 90) alice_full
     = Return (set_motions
                 (dict_set "m3" (clip 90) (dict_del oldest_id (motions alice_full)))
                 alice_full)) ∧
  Z.of_nat (length (motions (store_motions two_motions
                               [("m3", clip 90); ("m4", clip 95); ("m5", clip 99)]
                               alice_full))) <= 2.
Proof.
  pose proof (motion_store_bounded two_motions) as (Hbound & _ & _ & Hevict).
  assert (Hnodup : NoDup (motions alice_full).*1).
  { cbn. apply NoDup_cons. split; [|apply NoDup_singleton].
    intros Hin%list_elem_of_singleton. discriminate Hin. }
  split.
  - destruct (Hevict alice_full "m3" (clip 90) eq_refl eq_refl Hnodup)
      as (oldest_id & oldest & Hget & Hleast & Hstore & _).
    exists oldest_id, oldest. auto.
  - apply (Hbound [("m3", clip 90); ("m4", clip 95); ("m5", clip 99)] alice_full).
    cbn. lia.
Defined.

(** ** The generate handler on sample exchanges *)

(** The remote server answers [{"error":"bad prompt","code":"INVALID_INPUT"}]:
    the client receives GENERATION_FAILED, not INVALID_INPUT. *)
Lemma remote_error_response_masked_witness :
  let r := generate_motion (load_as npz_walk) loads_bad_prompt default_config
             a_request (Some "alice") (env_with (WsText bad_prompt_text)) alice_state in
  ∃ e, r.1 = Raise e ∧
       resp_status (error_envelope e) = 500 ∧
       resp_code (error_envelope e) = JStr "GENERATION_FAILED" ∧
       resp_code (error_envelope e) ≠ JStr "INVALID_INPUT" ∧
       resp_error (error_envelope e) ≠ JStr "bad prompt" ∧
       no_motion_created alice_state r.2.
Proof.
  pose proof (remote_error_response_masked (load_as npz_walk) loads_bad_prompt default_config)
    as (_ & _ & Hmasked).
  destruct (Hmasked a_request (Some "alice") (env_with (WsText bad_prompt_text)) alice_state
              bad_prompt_text eq_refl eq_refl) as (e & Hraise & Henvelope & Hnone).
  exists e. rewrite Henvelope. cbn.
  split; [exact Hraise|]. split; [done|]. split; [done|].
  split; [discriminate|]. split; [discriminate|exact Hnone].
Defined.

(** A refused connection (an OSError) and a failed handshake (a websockets
    exception) both reach the client as GENERATION_FAILED. *)
Lemma transport_failure_masked_witness :
  let refused := OtherException "[Errno 111] Connect call failed ('127.0.0.1', 8000)" in
  let handshake := WebSocketException "server rejected WebSocket connection: HTTP 500" in
  let answer failure :=
    (generate_motion (load_as npz_walk) loads_bad_prompt default_config
       a_request (Some "alice") (env_with (WsRaised failure)) alice_state).1 in
  (∃ e, answer refused = Raise e ∧
        resp_status (error_envelope e) = 500 ∧
        resp_code (error_envelope e) = JStr "GENERATION_FAILED") ∧
  (∃ e, answer handshake = Raise e ∧
        resp_status (error_envelope e) = 500 ∧
        resp_code (error_envelope e) = JStr "GENERATION_FAILED") ∧
  (∃ e, answer TimeoutError = Raise e ∧
        resp_status (error_envelope e) = 504 ∧
        resp_code (error_envelope e) = JStr "TIMEOUT").
Proof.
  pose proof (transport_failure_masked (load_as npz_walk) loads_bad_prompt default_config)
    as (_ & _ & Hfailure).
  cbn zeta. split; [|split].
  - destruct (Hfailure a_request (Some "alice")
                (env_with (WsRaised (OtherException
                   "[Errno 111] Connect call failed ('127.0.0.1', 8000)")))
                alice_state _ eq_refl eq_refl) as (e & Hraise & _ & _ & Hmasked).
    exists e. rewrite Hmasked by discriminate. now split.
  - destruct (Hfailure a_request (Some "alice")
                (env_with (WsRaised (WebSocketException
                   "server rejected WebSocket connection: HTTP 500")))
                alice_state _ eq_refl eq_refl) as (e & Hraise & _ & _ & Hmasked).
    exists e. rewrite Hmasked by discriminate. now split.
  - destruct (Hfailure a_request (Some "alice") (env_with (WsRaised TimeoutError))
                alice_state _ eq_refl eq_refl) as (e & Hraise & _ & Htimeout & _).
    exists e. rewrite Htimeout by reflexivity. now split.
Defined.

Lemma admitted_request_keeps_count_witness :
  let r := generate_motion (load_as npz_zero_fps) loads_bad_prompt default_config
             a_request (Some "alice") (env_with (WsBinary [])) alice_state in
  (∃ e, r.1 = Raise e) ∧
  ∃ session', sessions r.2 !! "alice" = Some session' ∧ request_count session' = 1.
Proof.
  pose proof (admitted_request_keeps_count (load_as npz_zero_fps) loads_bad_prompt
                default_config a_request (Some "alice") (env_with (WsBinary [])) alice_state
                eq_refl) as [(session' & Hlookup & _ & _ & Hcount) _].
  split; [eexists; reflexivity|].
  exists session'. split; [exact Hlookup|exact Hcount].
Defined.

(** ** Deleting a motion and last_activity *)

(** C9 at a failing input: the session "alice" was last active at time 100;
    deleting its motion "m1" at time 200 succeeds and leaves last_activity
    at 100, where reading the same motion or listing the motions at time
    200 sets it to 200. *)
Theorem delete_motion_leaves_last_activity :
  (delete_motion "m1" (Some "alice") 200 alice_state).1 = Return tt ∧
  stored_motions (delete_motion "m1" (Some "alice") 200 alice_state).2 "alice" = [] ∧
  last_activity <$> sessions (delete_motion "m1" (Some "alice") 200 alice_state).2 !! "alice"
  = Some 100 ∧
  last_activity <$> sessions (get_motion "m1" (Some "alice") 200 alice_state).2 !! "alice"
  = Some 200 ∧
  last_activity <$> sessions (list_motions (Some "alice") 200 alice_state).2 !! "alice"
  = Some 200.
Proof. repeat split. Qed.

(** ** Sweeps, listings and single calls on the sample states *)

Lemma periodic_cleanup_last_witness :
  periodic_cleanup default_config [300000000; 600000000; 1860000100] alice_state
  = cleanup_expired_sessions default_config 1860000100 alice_state.
Proof.
  apply (periodic_cleanup_last default_config [300000000; 600000000] 1860000100 alice_state).
  repeat constructor; lia.
Defined.

Lemma list_motions_sorted_witness :
  let listing := (list_motions (Some "alice") 200 busy_state).1 in
  length (ml_motions listing) = 3%nat ∧
  StronglySorted newer_first (ml_motions listing) ∧
  ms_motion_id <$> ml_motions listing = ["m3"; "m1"; "m2"].
Proof.
  destruct (list_motions_sorted "alice" 200 busy_state
              (session_of "alice" [("m1", clip 70); ("m2", clip 50); ("m3", clip 90)]))
    as (_ & _ & Hlength & Hsorted & _); [done|reflexivity|].
  split; [exact Hlength|]. split; [exact Hsorted|reflexivity].
Defined.

Lemma lookup_calls_frame_witness :
  dom (sessions (serve (load_as npz_walk) loads_bad_prompt default_config
                   (CallDeleteMotion "m1" (Some "alice") 200) alice_state))
  = dom (sessions alice_state) ∧
  active_sessions (serve (load_as npz_walk) loads_bad_prompt default_config
                     (CallDeleteMotion "m1" (Some "alice") 200) alice_state) = 1%nat.
Proof.
  destruct (lookup_calls_frame (load_as npz_walk) loads_bad_prompt default_config
              (CallDeleteMotion "m1" (Some "alice") 200) alice_state eq_refl)
    as (Hdom & Hactive & _).
  split; [exact Hdom|]. rewrite Hactive. reflexivity.
Defined.

Lemma calls_leave_other_sessions_witness :
  sessions (serve (load_as npz_walk) loads_bad_prompt default_config
              (CallGenerate a_request (Some "bob") (env_with (WsBinary []))) alice_state)
    !! "alice"
  = sessions alice_state !! "alice".
Proof.
  apply (calls_leave_other_sessions (load_as npz_walk) loads_bad_prompt default_config
           (CallGenerate a_request (Some "bob") (env_with (WsBinary []))) alice_state "alice").
  - intros now. discriminate.
  - cbn. intros [=].
Defined.

(** ** A run of the application *)

Lemma reachable_ids_agree_witness :
  ∃ session,
    sessions (serve_all (load_as npz_walk) loads_bad_prompt default_config
                some_calls initial_state) !! "alice" = Some session ∧
    session_id session = "alice" ∧ NoDup (motions session).*1.
Proof.
  assert (∃ session,
            sessions (serve_all (load_as npz_walk) loads_bad_prompt default_config
                        some_calls initial_state) !! "alice" = Some session)
    as [session Hsession] by (vm_compute; eauto).
  exists session. split; [exact Hsession|].
  destruct (reachable_ids_agree (load_as npz_walk) loads_bad_prompt default_config
              some_calls "alice" session Hsession) as (Hid & Hnodup & _).
  split; [exact Hid|exact Hnodup].
Defined.

Lemma reachable_within_limits_witness :
  ∃ session,
    sessions (serve_all (load_as npz_walk) loads_bad_prompt default_config
                some_calls initial_state) !! "alice" = Some session ∧
    Z.of_nat (length (motions session)) <= 10 ∧ 0 <= request_count session <= 10.
Proof.
  assert (∃ session,
            sessions (serve_all (load_as npz_walk) loads_bad_prompt default_config
                        some_calls initial_state) !! "alice" = Some session)
    as [session Hsession] by (vm_compute; eauto).
  exists session. split; [exact Hsession|].
  exact (reachable_within_limits (load_as npz_walk) loads_bad_prompt default_config
           some_calls "alice" session Hsession).
Defined.


(** ** Generating, reading and deleting on the sample states *)


Lemma generate_rate_limited_witness :
  (generate_motion (load_as npz_walk) loads_bad_prompt default_config
     a_request (Some "alice") (env_with (WsBinary [])) spent_state).1
  = Raise rate_limit_error.
Proof.
  destruct (generate_rate_limited (load_as npz_walk) loads_bad_prompt default_config
              a_request "alice" (env_with (WsBinary [])) spent_state spent_session)
    as [-> _]; try done;
    unfold within_window, timedelta_minutes; cbn; lia.
Defined.

Lemma generate_motion_raises_http_witness :
  ∃ status error code,
    (generate_motion (load_as npz_walk) loads_bad_prompt default_config
       a_request (Some "alice") (env_with (WsRaised TimeoutError)) alice_state).1
    = Raise (HTTPException status (DetailDict error code)) ∧
    status ∈ [429; 500; 502; 503; 504].
Proof.
  destruct (generate_motion_raises_http (load_as npz_walk) loads_bad_prompt default_config
              a_request (Some "alice") (env_with (WsRaised TimeoutError)) alice_state
              (http_error 504 "Request timeout - generation took too long" "TIMEOUT")
              eq_refl) as [_ Hkind].
  destruct Hkind as (status & error & code & Heq & Hstatus).
  - intros status detail. discriminate.
  - intros npz_bytes status detail. discriminate.
  - exists status, error, code. split; [|exact Hstatus]. now rewrite <- Heq.
Defined.

Lemma generate_conversion_failure_witness :
  (generate_motion (load_as npz_zero_fps) loads_bad_prompt default_config
     a_request (Some "alice") (env_with (WsBinary [])) alice_state).1
  = Raise (http_error 500 "Failed to generate motion: division by zero" "GENERATION_FAILED").
Proof.
  destruct (generate_conversion_failure (load_as npz_zero_fps) loads_bad_prompt
              default_config a_request (Some "alice") (env_with (WsBinary []))
              alice_state [] npz_zero_fps eq_refl eq_refl eq_refl)
    as (e & Hconvert & -> & _).
  - right. right. exists []. reflexivity.
  - injection Hconvert as <-. reflexivity.
Defined.

Lemma delete_then_get_witness :
  (get_motion "m1" (Some "alice") 300
     (delete_motion "m1" (Some "alice") 200 alice_state).2).1
  = Raise (HTTPException 404 (DetailStr "Motion not found")).
Proof.
  destruct (delete_then_get "m1" "alice" 200 300 alice_state
              (session_of "alice" [("m1", clip 50)]) (clip 50))
    as (_ & Hget & _); try done.
  cbn. apply NoDup_singleton.
Defined.

Lemma not_found_answers_witness :
  resp_status (error_envelope (HTTPException 404 (DetailStr "Session not found"))) = 404 ∧
  (delete_motion "m1" (Some "bob") 200 alice_state).2 = alice_state.
Proof.
  destruct (not_found_answers "m1" (Some "bob") 200 alice_state
              (HTTPException 404 (DetailStr "Session not found"))) as [_ Hdelete].
  destruct (Hdelete eq_refl) as (_ & Hstate & Hstatus & _).
  split; [exact Hstatus|exact Hstate].
Defined.


Lemma zero_limit_stores_nothing_witness :
  (generate_motion (load_as npz_walk) loads_bad_prompt no_motions a_request (Some "alice")
     (env_with (WsBinary []))
     (serve_all (load_as npz_walk) loads_bad_prompt no_motions some_calls initial_state)).1
  = Raise (http_error 500 "Failed to generate motion: min() arg is an empty sequence"
             "GENERATION_FAILED").
Proof.
  rewrite (zero_limit_stores_nothing (load_as npz_walk) loads_bad_prompt no_motions
             some_calls a_request (Some "alice") (env_with (WsBinary [])) [] npz_walk);
    try reflexivity.
  unfold missing_array, fps_unusable. cbn.
  intros [[|[|[|]]]|[|[rest Hzero]]]; discriminate.
Defined.
